(** * A shallow embedding of the chess session server (app.js)

    The server keeps one [ChessGame] object (position, seats, remaining
    times, interval handles), reacts to socket events and to the ticks of
    the interval it scheduled, and talks to its clients by emitting
    messages.  Every handler of the source runs to completion before the
    next event is taken from the Node event loop, so a handler is a
    function from the server state to a new state and the list of messages
    it emitted, in order.

    The rules engine (chess.js) is an external library: it is an interface
    here ([RulesEngine]), and a small opening book instantiates it for the
    concrete runs. *)

From Stdlib Require Import ZArith List String Ascii Bool Lia DecimalString.
Import ListNotations.
Open Scope string_scope.
Open Scope list_scope.
Open Scope Z_scope.

(** ** Data of the source *)

(** The argument of [startTimer] and the keys of [players] and [timers]:
    the strings 'white' and 'black'. *)
Inductive Color : Type := white | black.

Definition Color_eqb (a b : Color) : bool :=
  match a, b with
  | white, white | black, black => true
  | _, _ => false
  end.

(** [turnColor === 'white' ? 'black' : 'white'] *)
Definition nextColorOf (turnColor : Color) : Color :=
  match turnColor with white => black | black => white end.

(** [color[0]]: 'w' or 'b'. *)
Definition initial_letter (color : Color) : string :=
  match color with white => "w" | black => "b" end.

(** [turnColor === 'white' ? 'White' : 'Black'] *)
Definition capitalised (color : Color) : string :=
  match color with white => "White" | black => "Black" end.

(** [socket.id] *)
Definition SocketId : Type := string.

(** What [setInterval] returns. *)
Definition Handle : Type := nat.

(** [{ white: ..., black: ... }] holding socket ids or [null]. *)
Record Players : Type := mkPlayers {
  p_white : option SocketId;
  p_black : option SocketId
}.

(** [{ white: ..., black: ... }] holding seconds: integers, far inside
    the range in which JavaScript numbers are exact. *)
Record Timers : Type := mkTimers {
  t_white : Z;
  t_black : Z
}.

Definition seat (color : Color) (p : Players) : option SocketId :=
  match color with white => p_white p | black => p_black p end.

Definition remaining (color : Color) (t : Timers) : Z :=
  match color with white => t_white t | black => t_black t end.

(** [this.timers[color]--] *)
Definition decrement (color : Color) (t : Timers) : Timers :=
  match color with
  | white => mkTimers (t_white t - 1) (t_black t)
  | black => mkTimers (t_white t) (t_black t - 1)
  end.

(** JavaScript's [!x] on a seat: [null] and the empty string are falsy. *)
Definition falsy (x : option SocketId) : bool :=
  match x with
  | None => true
  | Some s => String.eqb s ""
  end.

(** [socket.id === x] for a seat [x]. *)
Definition same_id (sid : SocketId) (x : option SocketId) : bool :=
  match x with
  | None => false
  | Some s => String.eqb sid s
  end.

(** The payload of a 'move' event; [promotion] may be missing.  A [from]
    or [to] that is no square is just a string the engine knows no move
    for. *)
Record MoveRequest : Type := mkMoveRequest {
  from : string;
  to : string;
  promotion : option string
}.

(** [serverMove], built by the handler: the promotion is always set. *)
Record ServerMove : Type := mkServerMove {
  sm_from : string;
  sm_to : string;
  sm_promotion : string
}.

(** [move.promotion || 'q'] *)
Definition promotion_or_q (p : option string) : string :=
  match p with
  | None => "q"
  | Some s => if String.eqb s "" then "q" else s
  end.

Definition make_serverMove (m : MoveRequest) : ServerMove :=
  mkServerMove (from m) (to m) (promotion_or_q (promotion m)).

(** What a call of the engine's [move] can do: return the move it made
    (the position is then the new one), return [null], or throw. *)
Inductive MoveResult (P : Type) : Type :=
| Moved (p' : P)
| Refused
| Threw (message : string).
Arguments Moved {P} p'.
Arguments Refused {P}.
Arguments Threw {P} message.

(** The part of chess.js the server calls. *)
Class RulesEngine : Type := {
  Position : Type;
  new_Chess : Position;
  turn : Position -> string;
  move : Position -> ServerMove -> MoveResult Position;
  in_checkmate : Position -> bool;
  in_stalemate : Position -> bool;
  in_draw : Position -> bool;
  fen : Position -> string
}.

(** Messages, named after the event they are emitted under. *)
Inductive Message : Type :=
| playerRole (letter : string)
| spectatorRole
| gameState (fen_ : string) (timers_ : Timers)
| moveMade (move_ : ServerMove) (fen_ : string) (timers_ : Timers)
| timerUpdate (timers_ : Timers)
| timeUp (letter : string)
| gameOver (text : string)
| invalidMove (text : string)
| drawOffered
| playerDisconnected (color : string)
| resetDone (fen_ : string) (timers_ : Timers).

(** [io.emit], [socket.emit] and [socket.broadcast.emit]. *)
Inductive Audience : Type :=
| ToAll
| ToSocket (sid : SocketId)
| ToAllBut (sid : SocketId).

Definition Emission : Type := (Audience * Message)%type.

Definition is_broadcast (e : Emission) : bool :=
  match fst e with
  | ToSocket _ => false
  | _ => true
  end.

Definition is_gameOver (e : Emission) : bool :=
  match snd e with
  | gameOver _ => true
  | _ => false
  end.

Definition is_timeUp (e : Emission) : bool :=
  match snd e with
  | timeUp _ => true
  | _ => false
  end.

(** How a handler ends: normally, or by an exception. *)
Inductive Completion (A : Type) : Type :=
| Normal (a : A)
| Thrown (message : string).
Arguments Normal {A} a.
Arguments Thrown {A} message.

Section Server.

Context {engine : RulesEngine}.

(** The fields of [class ChessGame].  [timerIntervals] is the object
    [{}] that [startTimer] fills under the key [color]: its entries in
    insertion order, which is the order of [Object.values]. *)
Record ChessGame : Type := mkChessGame {
  chess : Position;
  players : Players;
  timers : Timers;
  timerIntervals : list (Color * Handle)
}.

(** The process: the one [game], and what the Node runtime holds of it:
    the intervals scheduled and not cleared, each with the [color] its
    callback closed over, and the next fresh handle. *)
Record Server : Type := mkServer {
  game : ChessGame;
  scheduled : list (Handle * Color);
  next_handle : Handle
}.

(** [new ChessGame()] *)
Definition new_ChessGame : ChessGame :=
  mkChessGame new_Chess (mkPlayers None None) (mkTimers 600 600) [].

Definition boot : Server := mkServer new_ChessGame [] 0%nat.

Definition with_chess (c : Position) (g : ChessGame) : ChessGame :=
  mkChessGame c (players g) (timers g) (timerIntervals g).
Definition with_players (p : Players) (g : ChessGame) : ChessGame :=
  mkChessGame (chess g) p (timers g) (timerIntervals g).
Definition with_timers (t : Timers) (g : ChessGame) : ChessGame :=
  mkChessGame (chess g) (players g) t (timerIntervals g).
Definition with_timerIntervals (i : list (Color * Handle)) (g : ChessGame)
  : ChessGame :=
  mkChessGame (chess g) (players g) (timers g) i.

(** [obj[color] = h] on an object given by its entries. *)
Fixpoint assign (color : Color) (h : Handle) (o : list (Color * Handle))
  : list (Color * Handle) :=
  match o with
  | [] => [(color, h)]
  | (k, v) :: rest =>
      if Color_eqb k color then (k, h) :: rest
      else (k, v) :: assign color h rest
  end.

(** ** Handlers: state, emitted messages, exceptions *)

Definition Handler (A : Type) : Type :=
  Server -> Completion A * Server * list Emission.

Definition ret {A} (a : A) : Handler A := fun s => (Normal a, s, []).

Definition bind {A B} (c : Handler A) (k : A -> Handler B) : Handler B :=
  fun s =>
    match c s with
    | (Normal a, s1, out1) =>
        match k a s1 with
        | (r, s2, out2) => (r, s2, out1 ++ out2)
        end
    | (Thrown msg, s1, out1) => (Thrown msg, s1, out1)
    end.

Definition throw {A} (msg : string) : Handler A :=
  fun s => (Thrown msg, s, []).

(** [try { body } catch (err) { handler(err.message) }] *)
Definition try_catch (body : Handler unit) (handler : string -> Handler unit)
  : Handler unit :=
  fun s =>
    match body s with
    | (Normal a, s1, out1) => (Normal a, s1, out1)
    | (Thrown msg, s1, out1) =>
        match handler msg s1 with
        | (r, s2, out2) => (r, s2, out1 ++ out2)
        end
    end.

Notation "x <- c ;; k" := (bind c (fun x => k))
  (at level 61, c at next level, right associativity).
Notation "c ;; k" := (bind c (fun _ => k))
  (at level 61, right associativity).

Definition read {A} (f : ChessGame -> A) : Handler A :=
  fun s => (Normal (f (game s)), s, []).

Definition update (f : ChessGame -> ChessGame) : Handler unit :=
  fun s => (Normal tt, mkServer (f (game s)) (scheduled s) (next_handle s), []).

Definition io_emit (m : Message) : Handler unit :=
  fun s => (Normal tt, s, [(ToAll, m)]).

Definition socket_emit (sid : SocketId) (m : Message) : Handler unit :=
  fun s => (Normal tt, s, [(ToSocket sid, m)]).

Definition socket_broadcast_emit (sid : SocketId) (m : Message)
  : Handler unit :=
  fun s => (Normal tt, s, [(ToAllBut sid, m)]).

(** [clearInterval(h)]: the runtime forgets the interval. *)
Definition clearInterval (h : Handle) : Handler unit :=
  fun s =>
    (Normal tt,
     mkServer (game s)
       (filter (fun e => negb (Nat.eqb (fst e) h)) (scheduled s))
       (next_handle s),
     []).

(** [setInterval(callback, 1000)], for the callback of [startTimer]
    closed over [color]. *)
Definition setInterval (color : Color) : Handler Handle :=
  fun s =>
    (Normal (next_handle s),
     mkServer (game s) (scheduled s ++ [(next_handle s, color)])
       (S (next_handle s)),
     []).

(** [xs.forEach(f)] *)
Fixpoint forEach {A} (xs : list A) (f : A -> Handler unit) : Handler unit :=
  match xs with
  | [] => ret tt
  | x :: rest => f x ;; forEach rest f
  end.

(** ** The methods of [ChessGame] *)

Definition stopTimers : Handler unit :=
  values <- read (fun g => map snd (timerIntervals g)) ;;
  forEach values clearInterval ;;
  update (with_timerIntervals []).

Definition startTimer (color : Color) : Handler unit :=
  stopTimers ;;
  h <- setInterval color ;;
  update (fun g => with_timerIntervals (assign color h (timerIntervals g)) g).

(** The callback [startTimer] hands to [setInterval]. *)
Definition on_interval (color : Color) : Handler unit :=
  update (fun g => with_timers (decrement color (timers g)) g) ;;
  t <- read timers ;;
  io_emit (timerUpdate t) ;;
  if remaining color t <=? 0
  then stopTimers ;; io_emit (timeUp (initial_letter color))
  else ret tt.

(** [reset()] of src/app.js. *)
Definition reset : Handler unit :=
  update (with_chess new_Chess) ;;
  update (with_timers (mkTimers 600 600)) ;;
  stopTimers ;;
  update (with_players (mkPlayers None None)).

(** [reset()] of the older server copy (src/unnamed/part_000): the seats
    are not touched. *)
Definition reset_part_000 : Handler unit :=
  update (with_chess new_Chess) ;;
  update (with_timers (mkTimers 600 600)) ;;
  stopTimers.

(** ** The handlers of the socket events *)

(** [game.chess.turn() === 'w' ? 'white' : 'black'] *)
Definition turnColorOf (c : Position) : Color :=
  if String.eqb (turn c) "w" then white else black.

(** [game.chess.move(serverMove)], and whether its result is truthy. *)
Definition chess_move (serverMove : ServerMove) : Handler bool :=
  fun s =>
    match move (chess (game s)) serverMove with
    | Moved p' =>
        (Normal true,
         mkServer (with_chess p' (game s)) (scheduled s) (next_handle s), [])
    | Refused => (Normal false, s, [])
    | Threw msg => (Thrown msg, s, [])
    end.

(** The message of the TypeError that [move.from] raises when the payload
    is [null] or [undefined]. *)
Definition no_payload_message : string :=
  "Cannot read properties of null (reading 'from')".

(** Reading the properties of the payload; [None] is a payload that has
    none ([null], [undefined]). *)
Definition properties_of (payload : option MoveRequest)
  : Handler MoveRequest :=
  match payload with
  | Some m => ret m
  | None => throw no_payload_message
  end.

(** [io.on('connection', ...)], up to the registration of the handlers.
    The field [socket.playerRole] is written and never read: it is left
    out. *)
Definition on_connection (sid : SocketId) : Handler unit :=
  p <- read players ;;
  (if falsy (p_white p) then
     update (fun g => with_players (mkPlayers (Some sid) (p_black (players g))) g) ;;
     socket_emit sid (playerRole "w")
   else if falsy (p_black p) then
     update (fun g => with_players (mkPlayers (p_white (players g)) (Some sid)) g) ;;
     socket_emit sid (playerRole "b") ;;
     startTimer white
   else
     socket_emit sid spectatorRole) ;;
  c <- read chess ;;
  t <- read timers ;;
  socket_emit sid (gameState (fen c) t).

(** The end conditions checked after an accepted move. *)
Definition announce_end (turnColor : Color) : Handler unit :=
  c <- read chess ;;
  if in_checkmate c then
    stopTimers ;;
    io_emit (gameOver
      (String.append "Checkmate! " (String.append (capitalised turnColor) " wins")))
  else if in_stalemate c then
    stopTimers ;;
    io_emit (gameOver "Stalemate!")
  else if in_draw c then
    stopTimers ;;
    io_emit (gameOver "Draw!")
  else ret tt.

(** [socket.on('move', ...)]; [console.error] in the catch clause writes
    to the process log only. *)
Definition on_move (sid : SocketId) (payload : option MoveRequest)
  : Handler unit :=
  try_catch
    (c <- read chess ;;
     let turnColor := turnColorOf c in
     allowedSocketId <- read (fun g => seat turnColor (players g)) ;;
     if negb (same_id sid allowedSocketId) then ret tt
     else
       m <- properties_of payload ;;
       let serverMove := make_serverMove m in
       result <- chess_move serverMove ;;
       if negb result then socket_emit sid (invalidMove "Invalid move")
       else
         stopTimers ;;
         startTimer (nextColorOf turnColor) ;;
         c' <- read chess ;;
         t <- read timers ;;
         io_emit (moveMade serverMove (fen c') t) ;;
         announce_end turnColor)
    (fun message => socket_emit sid (invalidMove message)).

(** [socket.on('offerDraw', ...)] *)
Definition on_offerDraw (sid : SocketId) : Handler unit :=
  socket_broadcast_emit sid drawOffered.

(** [socket.on('acceptDraw', ...)] *)
Definition on_acceptDraw (sid : SocketId) : Handler unit :=
  stopTimers ;;
  io_emit (gameOver "Draw by agreement").

Definition resigningColorOf (sid : SocketId) (p : Players) : string :=
  if same_id sid (p_white p) then "White"
  else if same_id sid (p_black p) then "Black"
  else "Player".

Definition winnerOf (resigningColor : string) : string :=
  if String.eqb resigningColor "White" then "Black"
  else if String.eqb resigningColor "Black" then "White"
  else "Opponent".

(** [socket.on('resign', ...)] *)
Definition on_resign (sid : SocketId) : Handler unit :=
  stopTimers ;;
  p <- read players ;;
  let resigningColor := resigningColorOf sid p in
  let winner := winnerOf resigningColor in
  io_emit (gameOver
    (String.append resigningColor
      (String.append " resigns. " (String.append winner " wins!")))).

(** [socket.on('disconnect', ...)] *)
Definition on_disconnect (sid : SocketId) : Handler unit :=
  p <- read players ;;
  if same_id sid (p_white p) then
    update (fun g => with_players (mkPlayers None (p_black (players g))) g) ;;
    stopTimers ;;
    io_emit (playerDisconnected "white")
  else if same_id sid (p_black p) then
    update (fun g => with_players (mkPlayers (p_white (players g)) None) g) ;;
    stopTimers ;;
    io_emit (playerDisconnected "black")
  else ret tt.

(** [app.get('/reset', ...)]; the HTTP response itself is not a socket
    message and is left out. *)
Definition on_get_reset : Handler unit :=
  reset ;;
  c <- read chess ;;
  t <- read timers ;;
  io_emit (resetDone (fen c) t).

(** ** The event loop *)

Inductive Event : Type :=
| Connection (sid : SocketId)
| MoveEvent (sid : SocketId) (payload : option MoveRequest)
| OfferDraw (sid : SocketId)
| AcceptDraw (sid : SocketId)
| Resign (sid : SocketId)
| Disconnect (sid : SocketId)
| GetReset
| Tick (h : Handle).

(** The callback the runtime holds for the handle [h], if the interval is
    still scheduled. *)
Definition callback_of (h : Handle) (s : Server) : option Color :=
  match find (fun e => Nat.eqb (fst e) h) (scheduled s) with
  | Some (_, color) => Some color
  | None => None
  end.

(** A tick of a cleared interval does not happen: it is the identity. *)
Definition on_tick (h : Handle) : Handler unit :=
  fun s =>
    match callback_of h s with
    | Some color => on_interval color s
    | None => ret tt s
    end.

Definition handler_of (ev : Event) : Handler unit :=
  match ev with
  | Connection sid => on_connection sid
  | MoveEvent sid payload => on_move sid payload
  | OfferDraw sid => on_offerDraw sid
  | AcceptDraw sid => on_acceptDraw sid
  | Resign sid => on_resign sid
  | Disconnect sid => on_disconnect sid
  | GetReset => on_get_reset
  | Tick h => on_tick h
  end.

(** The state a handler leaves and the messages it emitted. *)
Definition state_after {A} (c : Handler A) (s : Server) : Server :=
  snd (fst (c s)).
Definition emitted_by {A} (c : Handler A) (s : Server) : list Emission :=
  snd (c s).

Definition step (ev : Event) (s : Server) : Server :=
  state_after (handler_of ev) s.

Fixpoint run (evs : list Event) (s : Server) : Server :=
  match evs with
  | [] => s
  | ev :: rest => run rest (step ev s)
  end.

(** Everything emitted along a run, in order. *)
Fixpoint transcript (evs : list Event) (s : Server) : list Emission :=
  match evs with
  | [] => []
  | ev :: rest => emitted_by (handler_of ev) s ++ transcript rest (step ev s)
  end.

(** The states the process can be in: [boot], then any events.  Events of
    sockets that never connected are included, so an invariant of
    [reachable] holds a fortiori of the real runs. *)
Inductive reachable : Server -> Prop :=
| reachable_boot : reachable boot
| reachable_step ev s : reachable s -> reachable (step ev s).

(** The sides whose countdown is running. *)
Definition decrementing (s : Server) : list Color := map snd (scheduled s).

(** The runtime holds exactly the intervals [timerIntervals] records. *)
Definition intervals_recorded (s : Server) : Prop :=
  map (fun e => (snd e, fst e)) (scheduled s) = timerIntervals (game s)
  /\ (List.length (scheduled s) <= 1)%nat.

(** What the runtime is left with once the handles [hs] were cleared. *)
Fixpoint clear_all (hs : list Handle) (l : list (Handle * Color))
  : list (Handle * Color) :=
  match hs with
  | [] => l
  | h :: rest =>
      clear_all rest (filter (fun e => negb (Nat.eqb (fst e) h)) l)
  end.

(** The intervals are recorded, and no remaining time exceeds the initial
    600 seconds. *)
Definition invariant (s : Server) : Prop :=
  intervals_recorded s
  /\ t_white (timers (game s)) <= 600
  /\ t_black (timers (game s)) <= 600.

(** A handler keeps the invariant. *)
Definition keeps {A} (c : Handler A) : Prop :=
  forall s, invariant s -> invariant (state_after c s).

(** A position in which the game has ended with no move left. *)
Definition mate_or_stalemate (p : Position) : bool :=
  in_checkmate p || in_stalemate p.

(** The end conditions of the 'move' handler. *)
Definition ends_game (p : Position) : bool :=
  in_checkmate p || in_stalemate p || in_draw p.

(** What chess.js guarantees of such positions: [in_checkmate] and
    [in_stalemate] hold only when no move is left, and [move] returns
    [null] for a move that is not among the legal ones. *)
Definition no_move_when_mated : Prop :=
  forall p m p', mate_or_stalemate p = true -> move p m <> Moved p'.

Definition is_reset (ev : Event) : bool :=
  match ev with GetReset => true | _ => false end.

(** The state an accepted move leaves, before the end conditions. *)
Definition switched (p' : Position) (s : Server) : Server :=
  let color := nextColorOf (turnColorOf (chess (game s))) in
  mkServer
    (mkChessGame p' (players (game s)) (timers (game s))
       [(color, next_handle s)])
    [(next_handle s, color)] (S (next_handle s)).

(** The states of the specification's coordinator, as far as the fields
    of the server determine them: Waiting is "fewer than two seats
    filled". *)
Definition both_seats_filled (s : Server) : bool :=
  negb (falsy (p_white (players (game s))))
  && negb (falsy (p_black (players (game s)))).

Definition spec_Waiting (s : Server) : bool := negb (both_seats_filled s).

End Server.

(** ** An opening book as rules engine

    Seven positions of real chess and the moves between them: 1. e4 e5,
    and the fool's mate 1. f3 e5 2. g4 Qh4#.  Every other move is refused,
    so the book accepts only moves that chess accepts; the concrete runs
    below stay inside it. *)
Module Book.

Inductive BookPosition : Type :=
| Start
| After_e4
| After_e4_e5
| After_f3
| After_f3_e5
| After_f3_e5_g4
| Mated.

Definition book_turn (p : BookPosition) : string :=
  match p with
  | Start | After_e4_e5 | After_f3_e5 | Mated => "w"
  | After_e4 | After_f3 | After_f3_e5_g4 => "b"
  end.

Definition plays (m : ServerMove) (a b : string) : bool :=
  String.eqb (sm_from m) a && String.eqb (sm_to m) b.

Definition book_move (p : BookPosition) (m : ServerMove)
  : MoveResult BookPosition :=
  match p with
  | Start =>
      if plays m "e2" "e4" then Moved After_e4
      else if plays m "f2" "f3" then Moved After_f3
      else Refused
  | After_e4 => if plays m "e7" "e5" then Moved After_e4_e5 else Refused
  | After_f3 => if plays m "e7" "e5" then Moved After_f3_e5 else Refused
  | After_f3_e5 => if plays m "g2" "g4" then Moved After_f3_e5_g4 else Refused
  | After_f3_e5_g4 => if plays m "d8" "h4" then Moved Mated else Refused
  | After_e4_e5 | Mated => Refused
  end.

Definition book_checkmate (p : BookPosition) : bool :=
  match p with Mated => true | _ => false end.

Definition book_fen (p : BookPosition) : string :=
  match p with
  | Start => "rnbqkbnr/pppppppp/8/8/8/8/PPPPPPPP/RNBQKBNR w KQkq - 0 1"
  | After_e4 => "rnbqkbnr/pppppppp/8/8/4P3/8/PPPP1PPP/RNBQKBNR b KQkq e3 0 1"
  | After_e4_e5 =>
      "rnbqkbnr/pppp1ppp/8/4p3/4P3/8/PPPP1PPP/RNBQKBNR w KQkq e6 0 2"
  | After_f3 => "rnbqkbnr/pppppppp/8/8/8/5P2/PPPPP1PP/RNBQKBNR b KQkq - 0 1"
  | After_f3_e5 =>
      "rnbqkbnr/pppp1ppp/8/4p3/8/5P2/PPPPP1PP/RNBQKBNR w KQkq e6 0 2"
  | After_f3_e5_g4 =>
      "rnbqkbnr/pppp1ppp/8/4p3/6P1/5P2/PPPPP2P/RNBQKBNR b KQkq g3 0 2"
  | Mated => "rnb1kbnr/pppp1ppp/8/4p3/6Pq/5P2/PPPPP2P/RNBQKBNR w KQkq - 1 3"
  end.

#[export] Instance book : RulesEngine := {|
  Position := BookPosition;
  new_Chess := Start;
  turn := book_turn;
  move := book_move;
  in_checkmate := book_checkmate;
  in_stalemate := fun _ => false;
  in_draw := fun _ => false;
  fen := book_fen
|}.

Definition plain (a b : string) : MoveRequest := mkMoveRequest a b None.

Definition req (a b : string) : option MoveRequest := Some (plain a b).

(** The runs of the scenarios below.  "A" connects first and is white,
    "B" connects second and is black; the first interval gets handle 0. *)
Definition two_players : list Event := [Connection "A"; Connection "B"].

Definition fools_mate_but_one : list Event :=
  two_players
  ++ [MoveEvent "A" (req "f2" "f3"); MoveEvent "B" (req "e7" "e5");
      MoveEvent "A" (req "g2" "g4")].

Definition fools_mate : list Event :=
  fools_mate_but_one ++ [MoveEvent "B" (req "d8" "h4")].

Definition after_resignation : list Event := two_players ++ [Resign "A"].

(** White has one second left. *)
Definition white_on_last_second : list Event :=
  two_players ++ repeat (Tick 0%nat) 599.


End Book.

(** * What the handlers send, and what they leave alone *)

Section Observations.

Context {engine : RulesEngine}.

(** The socket whose event is handled; a tick and the reset request have
    none. *)
Definition sender_of (ev : Event) : option SocketId :=
  match ev with
  | Connection sid | MoveEvent sid _ | OfferDraw sid | AcceptDraw sid
  | Resign sid | Disconnect sid => Some sid
  | GetReset | Tick _ => None
  end.

(** A message to everybody, or one sent through the socket [sid]: to it
    alone ([socket.emit]) or to all connections but it
    ([socket.broadcast.emit]).  Without a socket only a message to
    everybody qualifies. *)
Definition public_or_to (sid : option SocketId) (e : Emission) : bool :=
  match fst e, sid with
  | ToAll, _ => true
  | ToSocket x, Some y => String.eqb x y
  | ToAllBut x, Some y => String.eqb x y
  | _, None => false
  end.

(** Every message a handler emits satisfies [P]. *)
Definition sends_only {A} (P : Emission -> bool) (c : Handler A) : Prop :=
  forall s, forallb P (emitted_by c s) = true.

(** A handler leaves the part [f] of the game as it is. *)
Definition frames {A B} (f : ChessGame -> B) (c : Handler A) : Prop :=
  forall s, f (game (state_after c s)) = f (game s).

Definition is_tick (ev : Event) : bool :=
  match ev with Tick _ => true | _ => false end.

Definition is_move (ev : Event) : bool :=
  match ev with MoveEvent _ _ => true | _ => false end.

Definition is_seating (ev : Event) : bool :=
  match ev with
  | Connection _ | Disconnect _ | GetReset => true
  | _ => false
  end.

(** What [announce_end] broadcasts after the side [turnColor] moved into
    the position [p']. *)
Definition end_announcement (turnColor : Color) (p' : Position)
  : list Emission :=
  if in_checkmate p' then
    [(ToAll, gameOver
        (String.append "Checkmate! "
           (String.append (capitalised turnColor) " wins")))]
  else if in_stalemate p' then [(ToAll, gameOver "Stalemate!")]
  else if in_draw p' then [(ToAll, gameOver "Draw!")]
  else [].

(** Every scheduled interval has a handle that was already given out. *)
Definition handles_given_out (s : Server) : Prop :=
  forall h, callback_of h s <> None -> (h < next_handle s)%nat.

(** A handler gives out fresh handles only: the handles given out stay so,
    and an interval that is not scheduled stays so. *)
Definition never_revives {A} (c : Handler A) : Prop :=
  forall s,
    handles_given_out s ->
    handles_given_out (state_after c s)
    /\ (next_handle s <= next_handle (state_after c s))%nat
    /\ forall h, (h < next_handle s)%nat ->
         callback_of h s = None -> callback_of h (state_after c s) = None.

End Observations.

(** * The client (public/javascript/chess_game.js)

    The client keeps its role, the piece being dragged, the last timers it
    was sent and the text of the status line; it redraws the board from
    the position of its own chess.js object, which is an argument of
    [renderBoard] here.  What it creates in the DOM is the value the
    rendering functions return. *)
Module Client.

(** JavaScript's conversion of an integer to a string. *)
Definition show (z : Z) : string := NilZero.string_of_int (Z.to_int z).

(** [formatTime(seconds)] for an integer number of seconds of magnitude
    below 2^31, where the arithmetic of JavaScript numbers is exact and
    integers are printed in full: [Math.floor(seconds / 60)] is the floor
    quotient, [seconds % 60] has the sign of [seconds].  Beyond that
    range the definition says nothing of the code, and every fact about
    it below carries the bound. *)
Definition formatTime (seconds : Z) : string :=
  let m := seconds / 60 in
  let s := Z.rem seconds 60 in
  String.append (show m)
    (String.append ":"
       (String.append (if s <? 10 then "0" else "") (show s))).

(** [String.fromCharCode(n)], for the ASCII codes the client uses. *)
Definition fromCharCode (n : Z) : string :=
  String (ascii_of_N (Z.to_N n)) "".

(** [algebraicSquare] of [createSquareElement]. *)
Definition algebraicSquare (rowIndex colIndex : Z) : string :=
  String.append (fromCharCode (97 + colIndex)) (show (8 - rowIndex)).

(** [(rowIndex + colIndex) % 2 === 0 ? 'light' : 'dark'] *)
Definition shade (rowIndex colIndex : Z) : string :=
  if Z.rem (rowIndex + colIndex) 2 =? 0 then "light" else "dark".

(** An entry of [chess.board()]: a piece, or [null]. *)
Record Piece : Type := mkPiece {
  piece_type : string;
  piece_color : string
}.

(** The [div] made by [createPieceElement]: its colour class and, as
    text, the entry of [PIECE_UNICODE] under the key. *)
Record PieceElement : Type := mkPieceElement {
  piece_class : string;
  innerText : option string
}.

(** The [div] made by [createSquareElement]. *)
Record SquareElement : Type := mkSquareElement {
  square_class : string;
  dataset_square : string;
  child : option PieceElement
}.

Definition upper_ascii (a : ascii) : ascii :=
  let n := nat_of_ascii a in
  if (Nat.leb 97 n && Nat.leb n 122)%bool then ascii_of_nat (n - 32)
  else a.

(** [toUpperCase()] on the ASCII letters. *)
Fixpoint toUpperCase (t : string) : string :=
  match t with
  | EmptyString => EmptyString
  | String a rest => String (upper_ascii a) (toUpperCase rest)
  end.

(** [PIECE_UNICODE]: the same solid glyph under the lower-case and the
    upper-case letter. *)
Definition PIECE_UNICODE_entries : list (string * string) :=
  [("k", "♚"); ("q", "♛"); ("r", "♜"); ("b", "♝"); ("n", "♞"); ("p", "♟");
   ("K", "♚"); ("Q", "♛"); ("R", "♜"); ("B", "♝"); ("N", "♞"); ("P", "♟")].

(** [PIECE_UNICODE[key]]; a missing key gives [undefined]. *)
Definition PIECE_UNICODE (key : string) : option string :=
  option_map snd
    (find (fun e => String.eqb (fst e) key) PIECE_UNICODE_entries).

Definition createPieceElement (square : Piece) : PieceElement :=
  let key :=
    if String.eqb (piece_color square) "w"
    then toUpperCase (piece_type square)
    else piece_type square in
  mkPieceElement
    (if String.eqb (piece_color square) "w" then "white" else "black")
    (PIECE_UNICODE key).

Definition createSquareElement (rowIndex colIndex : Z)
    (square : option Piece) : SquareElement :=
  mkSquareElement (shade rowIndex colIndex)
    (algebraicSquare rowIndex colIndex)
    (option_map createPieceElement square).

(** [xs.forEach((x, index) => ...)], collecting what the body makes. *)
Fixpoint forEach_indexed {A B} (index : Z) (xs : list A)
    (body : A -> Z -> list B) : list B :=
  match xs with
  | [] => []
  | x :: rest => body x index ++ forEach_indexed (index + 1) rest body
  end.

(** [renderBoard()]: the squares appended to the board element, in
    order, for the role [playerRole] and the position [board]. *)
Definition renderBoard (playerRole : option string)
    (board : list (list (option Piece))) : list SquareElement :=
  let flipped :=
    match playerRole with
    | Some r => String.eqb r "b"
    | None => false
    end in
  let rows := if flipped then rev board else board in
  forEach_indexed 0 rows (fun row rowIndex =>
    let cols := if flipped then rev row else row in
    forEach_indexed 0 cols (fun square squareIndex =>
      let actualRow := if flipped then 7 - rowIndex else rowIndex in
      let actualCol := if flipped then 7 - squareIndex else squareIndex in
      [createSquareElement actualRow actualCol square])).

(** The fields of [ChessGameClient] that its handlers read and write, the
    texts of the two lines it writes, and the number of [setTimeout]
    callbacks of 'invalidMove' that are still to run. *)
Record ClientState : Type := mkClientState {
  playerRole : option string;
  draggedPiece : option string;
  localTimers : Timers;
  playerInfo : string;
  gameStatus : string;
  pending_clears : nat
}.

(** What the client sends to the server. *)
Inductive ClientEmit : Type :=
| emit_move (m : MoveRequest)
| emit_offerDraw
| emit_resign
| emit_acceptDraw.

Definition is_emit_move (e : ClientEmit) : bool :=
  match e with emit_move _ => true | _ => false end.

(** [this.playerRole === 'spectator' ? 'spectator' : null] *)
Definition role_after_end (role : option string) : option string :=
  match role with
  | Some r => if String.eqb r "spectator" then Some "spectator" else None
  | None => None
  end.

(** [this.playerRole !== square.color] *)
Definition not_own (role : option string) (color : string) : bool :=
  match role with
  | Some r => negb (String.eqb r color)
  | None => true
  end.

Definition handlePlayerRole (role : string) (c : ClientState) : ClientState :=
  mkClientState (Some role) (draggedPiece c) (localTimers c)
    (String.append "You are playing as "
       (if String.eqb role "w" then "White" else "Black"))
    (gameStatus c) (pending_clears c).

Definition handleSpectatorRole (c : ClientState) : ClientState :=
  mkClientState (Some "spectator") (draggedPiece c) (localTimers c)
    "You are watching as a spectator" (gameStatus c) (pending_clears c).

Definition handleGameOver (message : string) (c : ClientState)
  : ClientState :=
  mkClientState (role_after_end (playerRole c)) (draggedPiece c)
    (localTimers c) (playerInfo c) message (pending_clears c).

Definition handleTimeUp (color : string) (c : ClientState) : ClientState :=
  let isWhite := String.eqb color "w" || String.eqb color "white" in
  mkClientState (role_after_end (playerRole c)) (draggedPiece c)
    (mkTimers 0 0) (playerInfo c)
    (String.append "Time's up! "
       (String.append (if isWhite then "Black" else "White") " wins on time"))
    (pending_clears c).

Definition handleTimers (t : Timers) (c : ClientState) : ClientState :=
  mkClientState (playerRole c) (draggedPiece c) t (playerInfo c)
    (gameStatus c) (pending_clears c).

Definition handleInvalidMove (msg : string) (c : ClientState) : ClientState :=
  mkClientState (playerRole c) (draggedPiece c) (localTimers c)
    (playerInfo c) msg (S (pending_clears c)).

(** The callback of [setTimeout(..., 1500)] in the 'invalidMove' handler;
    it runs only when one is pending. *)
Definition clear_status (c : ClientState) : ClientState :=
  match pending_clears c with
  | O => c
  | S n =>
      mkClientState (playerRole c) (draggedPiece c) (localTimers c)
        (playerInfo c) "" n
  end.

Definition handlePlayerDisconnected (color : string) (c : ClientState)
  : ClientState :=
  mkClientState (playerRole c) (draggedPiece c) (localTimers c)
    (playerInfo c)
    (String.append "Player " (String.append color " disconnected."))
    (pending_clears c).

Definition with_draggedPiece (d : option string) (c : ClientState)
  : ClientState :=
  mkClientState (playerRole c) d (localTimers c) (playerInfo c)
    (gameStatus c) (pending_clears c).

(** What the server sends, what the user does, and the timeout.  Of
    'move' and 'gameState' only the timers are kept here: the move and
    the position go to the client's chess.js object, from which the
    board is redrawn. *)
Inductive ClientEvent : Type :=
| got_playerRole (role : string)
| got_spectatorRole
| got_move (t : Timers)
| got_gameState (t : Timers)
| got_gameOver (message : string)
| got_timeUp (color : string)
| got_drawOffered (accept : bool)
| got_timerUpdate (t : Timers)
| got_invalidMove (msg : string)
| got_playerDisconnected (color : string)
| status_timeout
| click_offerDraw
| click_resign
| dragstart (square color : string)
| drop (square : string)
| touchstart (square color : string)
| touchend (target : option string).

(** The handlers: the state they leave and what they send.  [square] of
    'dragstart' and 'touchstart' is [dataset.square] of the parent of the
    piece; [target] of 'touchend' is the square under the finger, if
    any; [accept] is the answer to [confirm]. *)
Definition handle (ev : ClientEvent) (c : ClientState)
  : ClientState * list ClientEmit :=
  match ev with
  | got_playerRole role => (handlePlayerRole role c, [])
  | got_spectatorRole => (handleSpectatorRole c, [])
  | got_move t => (handleTimers t c, [])
  | got_gameState t => (handleTimers t c, [])
  | got_gameOver message => (handleGameOver message c, [])
  | got_timeUp color => (handleTimeUp color c, [])
  | got_drawOffered accept => (c, if accept then [emit_acceptDraw] else [])
  | got_timerUpdate t => (handleTimers t c, [])
  | got_invalidMove msg => (handleInvalidMove msg c, [])
  | got_playerDisconnected color => (handlePlayerDisconnected color c, [])
  | status_timeout => (clear_status c, [])
  | click_offerDraw => (c, [emit_offerDraw])
  | click_resign => (c, [emit_resign])
  | dragstart square color =>
      if not_own (playerRole c) color then (c, [])
      else (with_draggedPiece (Some square) c, [])
  | drop square =>
      match draggedPiece c with
      | Some source =>
          (with_draggedPiece None c,
           [emit_move (mkMoveRequest source square (Some "q"))])
      | None => (c, [])
      end
  | touchstart square color =>
      if not_own (playerRole c) color then (c, [])
      else (with_draggedPiece (Some square) c, [])
  | touchend target =>
      match draggedPiece c, target with
      | Some source, Some square =>
          (with_draggedPiece None c,
           [emit_move (mkMoveRequest source square (Some "q"))])
      | _, _ => (c, [])
      end
  end.

Fixpoint handle_all (evs : list ClientEvent) (c : ClientState)
  : ClientState * list ClientEmit :=
  match evs with
  | [] => (c, [])
  | ev :: rest =>
      let (c1, out1) := handle ev c in
      let (c2, out2) := handle_all rest c1 in
      (c2, out1 ++ out2)
  end.

(** The pieces of chess.js are 'w' or 'b'. *)
Definition piece_events_are_of_pieces (ev : ClientEvent) : bool :=
  match ev with
  | dragstart _ color | touchstart _ color =>
      String.eqb color "w" || String.eqb color "b"
  | _ => true
  end.

Definition is_status_timeout (ev : ClientEvent) : bool :=
  match ev with status_timeout => true | _ => false end.

Definition assigns_role (ev : ClientEvent) : bool :=
  match ev with
  | got_playerRole _ => true
  | _ => false
  end.

(** A position as [chess.board()] gives it: eight rows of eight. *)
Definition eight_by_eight (board : list (list (option Piece))) : Prop :=
  List.length board = 8%nat
  /\ Forall (fun row => List.length row = 8%nat) board.

(** The board of the initial position, as [chess.board()] gives it. *)
Definition initial_board : list (list (option Piece)) :=
  let back (color : string) :=
    map (fun t => Some (mkPiece t color))
      ["r"; "n"; "b"; "q"; "k"; "b"; "n"; "r"] in
  let pawns (color : string) := repeat (Some (mkPiece "p" color)) 8 in
  let empty := repeat (@None Piece) 8 in
  [back "b"; pawns "b"; empty; empty; empty; empty; pawns "w"; back "w"].

(** Two digits, as a clock shows seconds. *)
Definition two_digits (n : Z) : string :=
  String.append (show (n / 10)) (show (n mod 10)).

End Client.

(** * Facts about the server *)

Section ServerFacts.

Context {engine : RulesEngine}.

(** ** The timers: what [stopTimers] and [startTimer] leave *)

Lemma forEach_clearInterval (hs : list Handle) (s : Server) :
  forEach hs clearInterval s
  = (Normal tt,
     mkServer (game s) (clear_all hs (scheduled s)) (next_handle s), []).
Proof.
  revert s. induction hs as [|h rest IH]; intros s.
  - destruct s; reflexivity.
  - cbn [forEach]. unfold bind. cbn [clearInterval].
    rewrite IH. reflexivity.
Qed.

Lemma stopTimers_eq (s : Server) :
  stopTimers s
  = (Normal tt,
     mkServer (with_timerIntervals [] (game s))
       (clear_all (map snd (timerIntervals (game s))) (scheduled s))
       (next_handle s), []).
Proof.
  unfold stopTimers, bind, read. rewrite forEach_clearInterval. reflexivity.
Qed.

Lemma clear_all_recorded (s : Server) :
  intervals_recorded s ->
  clear_all (map snd (timerIntervals (game s))) (scheduled s) = [].
Proof.
  intros [Hrec Hlen]. rewrite <- Hrec.
  destruct (scheduled s) as [|[h c] [|e l]]; cbn in *.
  - reflexivity.
  - rewrite Nat.eqb_refl. reflexivity.
  - lia.
Qed.

Lemma stopTimers_recorded (s : Server) :
  intervals_recorded s ->
  stopTimers s
  = (Normal tt, mkServer (with_timerIntervals [] (game s)) [] (next_handle s),
     []).
Proof.
  intros H. rewrite stopTimers_eq, clear_all_recorded by exact H. reflexivity.
Qed.

Lemma startTimer_recorded (color : Color) (s : Server) :
  intervals_recorded s ->
  startTimer color s
  = (Normal tt,
     mkServer (with_timerIntervals [(color, next_handle s)] (game s))
       [(next_handle s, color)] (S (next_handle s)), []).
Proof.
  intros H. unfold startTimer, bind. rewrite stopTimers_recorded by exact H.
  reflexivity.
Qed.

Lemma startTimer_eq (color : Color) (s : Server) :
  startTimer color s
  = (Normal tt,
     mkServer (with_timerIntervals [(color, next_handle s)] (game s))
       (clear_all (map snd (timerIntervals (game s))) (scheduled s)
        ++ [(next_handle s, color)])
       (S (next_handle s)), []).
Proof.
  unfold startTimer, bind. rewrite stopTimers_eq. reflexivity.
Qed.

(** ** The invariant of the event loop *)

Lemma keeps_bind {A B} (c : Handler A) (k : A -> Handler B) :
  keeps c -> (forall a, keeps (k a)) -> keeps (bind c k).
Proof.
  intros Hc Hk s Hs. specialize (Hc s Hs).
  unfold state_after, bind in *.
  destruct (c s) as [[[a|msg] s1] out1]; cbn in *.
  - specialize (Hk a s1 Hc). unfold state_after in Hk.
    destruct (k a s1) as [[r s2] out2]. exact Hk.
  - exact Hc.
Qed.

Lemma keeps_try_catch (body : Handler unit) (handler : string -> Handler unit) :
  keeps body -> (forall msg, keeps (handler msg)) ->
  keeps (try_catch body handler).
Proof.
  intros Hb Hh s Hs. specialize (Hb s Hs).
  unfold state_after, try_catch in *.
  destruct (body s) as [[[a|msg] s1] out1]; cbn in *.
  - exact Hb.
  - specialize (Hh msg s1 Hb). unfold state_after in Hh.
    destruct (handler msg s1) as [[r s2] out2]. exact Hh.
Qed.

Lemma keeps_ret {A} (a : A) : keeps (ret a).
Proof. intros s Hs. exact Hs. Qed.

Lemma keeps_throw {A} (msg : string) : keeps (@throw _ A msg).
Proof. intros s Hs. exact Hs. Qed.

Lemma keeps_read {A} (f : ChessGame -> A) : keeps (read f).
Proof. intros s Hs. exact Hs. Qed.

Lemma keeps_io_emit (m : Message) : keeps (io_emit m).
Proof. intros s Hs. exact Hs. Qed.

Lemma keeps_socket_emit (sid : SocketId) (m : Message) :
  keeps (socket_emit sid m).
Proof. intros s Hs. exact Hs. Qed.

Lemma keeps_socket_broadcast_emit (sid : SocketId) (m : Message) :
  keeps (socket_broadcast_emit sid m).
Proof. intros s Hs. exact Hs. Qed.

Lemma keeps_update_players (f : ChessGame -> Players) :
  keeps (update (fun g => with_players (f g) g)).
Proof. intros s Hs. exact Hs. Qed.

Lemma keeps_update_chess (c : Position) : keeps (update (with_chess c)).
Proof. intros s Hs. exact Hs. Qed.

Lemma keeps_chess_move (serverMove : ServerMove) :
  keeps (chess_move serverMove).
Proof.
  intros s Hs. unfold state_after, chess_move.
  destruct (move (chess (game s)) serverMove); exact Hs.
Qed.

Lemma keeps_properties_of (payload : option MoveRequest) :
  keeps (properties_of payload).
Proof. destruct payload; intros s Hs; exact Hs. Qed.

Lemma keeps_stopTimers : keeps stopTimers.
Proof.
  intros s [Hrec Hle]. unfold state_after.
  rewrite stopTimers_recorded by exact Hrec. cbn.
  split; [split; cbn; [reflexivity | lia] | exact Hle].
Qed.

Lemma keeps_startTimer (color : Color) : keeps (startTimer color).
Proof.
  intros s [Hrec Hle]. unfold state_after.
  rewrite startTimer_recorded by exact Hrec. cbn.
  split; [split; cbn; [reflexivity | lia] | exact Hle].
Qed.

Lemma keeps_decrement (color : Color) :
  keeps (update (fun g => with_timers (decrement color (timers g)) g)).
Proof.
  intros s [Hrec [Hw Hb]]. unfold state_after. cbn.
  split; [exact Hrec |]. destruct color; cbn; lia.
Qed.

Lemma keeps_restart_timers :
  keeps (update (with_timers (mkTimers 600 600))).
Proof.
  intros s [Hrec _]. unfold state_after. cbn.
  split; [exact Hrec | split; cbn; lia].
Qed.

Create HintDb keeps discriminated.
#[local] Hint Resolve keeps_ret keeps_throw keeps_read keeps_io_emit
  keeps_socket_emit keeps_socket_broadcast_emit keeps_update_players
  keeps_update_chess keeps_chess_move keeps_properties_of keeps_stopTimers
  keeps_startTimer keeps_decrement keeps_restart_timers : keeps.

(** Splits a handler along its binds and conditionals. *)
Ltac keeps_steps :=
  repeat first
    [ solve [auto with keeps]
    | match goal with
      | |- forall _, _ => intro
      | |- keeps (if ?b then _ else _) => destruct b
      | |- keeps (try_catch _ _) => apply keeps_try_catch
      | |- keeps (bind _ _) => apply keeps_bind
      end ].

Lemma keeps_on_interval (color : Color) : keeps (on_interval color).
Proof. unfold on_interval. keeps_steps. Qed.

Lemma keeps_reset : keeps reset.
Proof. unfold reset. keeps_steps. Qed.

Lemma keeps_handler_of (ev : Event) : keeps (handler_of ev).
Proof.
  destruct ev; cbn [handler_of].
  - unfold on_connection. keeps_steps.
  - unfold on_move, announce_end. keeps_steps.
  - unfold on_offerDraw. keeps_steps.
  - unfold on_acceptDraw. keeps_steps.
  - unfold on_resign. keeps_steps.
  - unfold on_disconnect. keeps_steps.
  - unfold on_get_reset. apply keeps_bind; [apply keeps_reset | keeps_steps].
  - intros s Hs. unfold state_after, on_tick.
    destruct (callback_of h s) as [color|].
    + apply keeps_on_interval. exact Hs.
    + exact Hs.
Qed.

Lemma invariant_boot : invariant boot.
Proof. split; [split; cbn; [reflexivity | lia] | cbn; lia]. Qed.

Lemma reachable_invariant (s : Server) : reachable s -> invariant s.
Proof.
  induction 1 as [|ev s _ IH].
  - exact invariant_boot.
  - apply keeps_handler_of. exact IH.
Qed.

Lemma reachable_recorded (s : Server) : reachable s -> intervals_recorded s.
Proof. intros H. apply reachable_invariant in H. exact (proj1 H). Qed.

Lemma invariant_run (evs : list Event) (s : Server) :
  invariant s -> invariant (run evs s).
Proof.
  revert s. induction evs as [|ev rest IH]; intros s Hs; cbn.
  - exact Hs.
  - apply IH. apply keeps_handler_of. exact Hs.
Qed.

Lemma reachable_run (evs : list Event) (s : Server) :
  reachable s -> reachable (run evs s).
Proof.
  revert s. induction evs as [|ev rest IH]; intros s Hs; cbn.
  - exact Hs.
  - apply IH. apply reachable_step. exact Hs.
Qed.

(** ** The 'move' handler, case by case *)

#[local] Arguments stopTimers : simpl never.
#[local] Arguments startTimer : simpl never.

Lemma same_id_true (sid : SocketId) (x : option SocketId) :
  same_id sid x = true <-> x = Some sid.
Proof.
  destruct x as [y|]; cbn.
  - rewrite String.eqb_eq. split; congruence.
  - split; discriminate.
Qed.

Lemma same_id_false (sid : SocketId) (x : option SocketId) :
  same_id sid x = false <-> x <> Some sid.
Proof.
  rewrite <- same_id_true. destruct (same_id sid x); split; congruence.
Qed.

(** The requester does not hold the seat of the side to move. *)
Lemma on_move_dropped (s : Server) (sid : SocketId)
    (payload : option MoveRequest) :
  same_id sid (seat (turnColorOf (chess (game s))) (players (game s))) = false ->
  on_move sid payload s = (Normal tt, s, []).
Proof.
  intros H. unfold on_move, try_catch, bind, read. rewrite H. reflexivity.
Qed.

(** The seat holder sends a payload without properties. *)
Lemma on_move_no_payload (s : Server) (sid : SocketId) :
  same_id sid (seat (turnColorOf (chess (game s))) (players (game s))) = true ->
  on_move sid None s
  = (Normal tt, s, [(ToSocket sid, invalidMove no_payload_message)]).
Proof.
  intros H. unfold on_move, try_catch, bind, read. rewrite H. reflexivity.
Qed.

(** The seat holder sends a move the engine does not make. *)
Lemma on_move_not_made (s : Server) (sid : SocketId) (m : MoveRequest) :
  same_id sid (seat (turnColorOf (chess (game s))) (players (game s))) = true ->
  (forall p', move (chess (game s)) (make_serverMove m) <> Moved p') ->
  exists text,
    on_move sid (Some m) s = (Normal tt, s, [(ToSocket sid, invalidMove text)]).
Proof.
  intros H Hno.
  unfold on_move, try_catch, bind, read. rewrite H. cbn.
  unfold chess_move.
  destruct (move (chess (game s)) (make_serverMove m)) as [p'| |msg].
  - exfalso. exact (Hno p' eq_refl).
  - exists "Invalid move". reflexivity.
  - exists msg. reflexivity.
Qed.

(** The seat holder sends a move the engine makes. *)
Lemma on_move_made (s : Server) (sid : SocketId) (m : MoveRequest)
    (p' : Position) :
  intervals_recorded s ->
  same_id sid (seat (turnColorOf (chess (game s))) (players (game s))) = true ->
  move (chess (game s)) (make_serverMove m) = Moved p' ->
  state_after (on_move sid (Some m)) s
  = (if ends_game p'
     then mkServer (with_timerIntervals [] (game (switched p' s))) []
            (S (next_handle s))
     else switched p' s)
  /\ exists rest,
       emitted_by (on_move sid (Some m)) s
       = (ToAll, moveMade (make_serverMove m) (fen p') (timers (game s)))
         :: rest
       /\ forallb is_gameOver rest = true.
Proof.
  intros Hrec H Hmove.
  unfold state_after, emitted_by, on_move, try_catch, bind, read.
  rewrite H. cbn. unfold chess_move. rewrite Hmove. cbn.
  rewrite stopTimers_eq. cbn. rewrite clear_all_recorded by exact Hrec.
  rewrite startTimer_eq. cbn.
  unfold announce_end, bind, read, ends_game. cbn.
  destruct (in_checkmate p'); [|destruct (in_stalemate p');
    [|destruct (in_draw p')]]; cbn;
    try (rewrite stopTimers_eq; cbn; rewrite Nat.eqb_refl; cbn);
    (split; [reflexivity | eexists; split; reflexivity]).
Qed.

(** ** Events that leave the position alone *)

Lemma position_kept (ev : Event) (s : Server) :
  intervals_recorded s ->
  is_reset ev = false ->
  (forall sid payload, ev <> MoveEvent sid payload) ->
  chess (game (step ev s)) = chess (game s).
Proof.
  intros Hrec Hnr Hnm. unfold step, state_after.
  destruct ev as [sid|sid payload|sid|sid|sid|sid| |h]; cbn [handler_of].
  - unfold on_connection, bind, read. cbn.
    destruct (falsy (p_white (players (game s)))); cbn; [reflexivity|].
    destruct (falsy (p_black (players (game s)))); cbn; [|reflexivity].
    rewrite startTimer_eq. reflexivity.
  - exfalso. exact (Hnm sid payload eq_refl).
  - reflexivity.
  - unfold on_acceptDraw, bind. rewrite stopTimers_eq. reflexivity.
  - unfold on_resign, bind. rewrite stopTimers_eq. reflexivity.
  - unfold on_disconnect, bind, read. cbn.
    destruct (same_id sid (p_white (players (game s)))); cbn;
      [rewrite stopTimers_eq; reflexivity|].
    destruct (same_id sid (p_black (players (game s)))); cbn;
      [rewrite stopTimers_eq; reflexivity | reflexivity].
  - discriminate Hnr.
  - unfold on_tick. destruct (callback_of h s) as [color|]; [|reflexivity].
    unfold on_interval, bind, read. cbn.
    destruct (remaining color (decrement color (timers (game s))) <=? 0); cbn;
      [rewrite stopTimers_eq; reflexivity | reflexivity].
Qed.

(** In a mated or stalemated position a 'move' event changes nothing and
    reaches at most its sender. *)
Lemma on_move_when_mated (s : Server) (sid : SocketId)
    (payload : option MoveRequest) :
  no_move_when_mated ->
  mate_or_stalemate (chess (game s)) = true ->
  state_after (on_move sid payload) s = s
  /\ existsb is_broadcast (emitted_by (on_move sid payload) s) = false.
Proof.
  intros Hengine Hover. unfold state_after, emitted_by.
  destruct (same_id sid
              (seat (turnColorOf (chess (game s))) (players (game s))))
    eqn:Hseat.
  - destruct payload as [m|].
    + destruct (on_move_not_made s sid m Hseat) as [text ->].
      * intros p'. apply Hengine. exact Hover.
      * split; reflexivity.
    + rewrite on_move_no_payload by exact Hseat. split; reflexivity.
  - rewrite on_move_dropped by exact Hseat. split; reflexivity.
Qed.

Lemma mated_position_stays (evs : list Event) (s : Server) :
  no_move_when_mated ->
  invariant s ->
  mate_or_stalemate (chess (game s)) = true ->
  existsb is_reset evs = false ->
  chess (game (run evs s)) = chess (game s).
Proof.
  intros Hengine. revert s.
  induction evs as [|ev rest IH]; intros s Hrec Hover Hnr; cbn in *.
  - reflexivity.
  - apply orb_false_iff in Hnr. destruct Hnr as [Hev Hrest].
    assert (Hkept : chess (game (step ev s)) = chess (game s)).
    { destruct ev as [sid|sid payload|sid|sid|sid|sid| |h];
        try (apply position_kept; [exact (proj1 Hrec) | exact Hev | discriminate]).
      - unfold step. cbn [handler_of].
        rewrite (proj1 (on_move_when_mated s sid payload Hengine Hover)).
        reflexivity. }
    rewrite IH.
    + exact Hkept.
    + apply keeps_handler_of. exact Hrec.
    + rewrite Hkept. exact Hover.
    + exact Hrest.
Qed.

(** ** Ticks *)

Lemma remaining_decrement (color : Color) (t : Timers) :
  remaining color (decrement color t) = remaining color t - 1.
Proof. destruct color; reflexivity. Qed.

Lemma remaining_decrement_other (color : Color) (t : Timers) :
  remaining (nextColorOf color) (decrement color t)
  = remaining (nextColorOf color) t.
Proof. destruct color; reflexivity. Qed.

Lemma on_tick_cleared (h : Handle) (s : Server) :
  callback_of h s = None -> on_tick h s = (Normal tt, s, []).
Proof. intros H. unfold on_tick. rewrite H. reflexivity. Qed.

Lemma on_tick_timers (h : Handle) (color : Color) (s : Server) :
  callback_of h s = Some color ->
  timers (game (step (Tick h) s)) = decrement color (timers (game s)).
Proof.
  intros H. unfold step, state_after. cbn [handler_of]. unfold on_tick.
  rewrite H. unfold on_interval, bind, read. cbn.
  destruct (remaining color (decrement color (timers (game s))) <=? 0); cbn;
    [rewrite stopTimers_eq; reflexivity | reflexivity].
Qed.

(** The tick on which the running side's time runs out. *)
Lemma on_tick_expiry (h : Handle) (color : Color) (s : Server) :
  intervals_recorded s ->
  callback_of h s = Some color ->
  remaining color (timers (game s)) <= 1 ->
  on_tick h s
  = (Normal tt,
     mkServer
       (mkChessGame (chess (game s)) (players (game s))
          (decrement color (timers (game s))) [])
       [] (next_handle s),
     [(ToAll, timerUpdate (decrement color (timers (game s))));
      (ToAll, timeUp (initial_letter color))]).
Proof.
  intros Hrec H Hle. unfold on_tick. rewrite H.
  unfold on_interval, bind, read. cbn.
  rewrite remaining_decrement.
  replace (remaining color (timers (game s)) - 1 <=? 0) with true
    by (symmetry; apply Z.leb_le; lia).
  rewrite stopTimers_eq. cbn.
  rewrite (clear_all_recorded s Hrec). reflexivity.
Qed.

(** ** The claims *)

(** C1, as amended: once the position is checkmate or stalemate, every
    'move' event that follows, whatever happens in between short of a
    reset, changes nothing of the server (position, remaining times,
    seats, intervals) and emits no broadcast: nothing at all when its
    sender does not hold the seat of the side to move, and exactly one
    invalidMove, to the sender alone, when it does.  The server keeps no
    record of an outcome: in every reachable state, whatever was
    announced before (a resignation, a draw by agreement, a timeout), a
    move the engine makes for the holder of the seat to move is applied
    and broadcast. *)
Theorem move_ignored_after_mate_or_stalemate
    (s : Server) (evs : list Event) (sid : SocketId)
    (payload : option MoveRequest) :
  no_move_when_mated ->
  reachable s ->
  mate_or_stalemate (chess (game s)) = true ->
  existsb is_reset evs = false ->
  state_after (on_move sid payload) (run evs s) = run evs s
  /\ (seat (turnColorOf (chess (game (run evs s))))
        (players (game (run evs s))) <> Some sid ->
      emitted_by (on_move sid payload) (run evs s) = [])
  /\ (seat (turnColorOf (chess (game (run evs s))))
        (players (game (run evs s))) = Some sid ->
      exists text,
        emitted_by (on_move sid payload) (run evs s)
        = [(ToSocket sid, invalidMove text)])
  /\ (forall s0 sid0 m p',
       reachable s0 ->
       seat (turnColorOf (chess (game s0))) (players (game s0)) = Some sid0 ->
       move (chess (game s0)) (make_serverMove m) = Moved p' ->
       chess (game (step (MoveEvent sid0 (Some m)) s0)) = p'
       /\ exists rest,
            emitted_by (on_move sid0 (Some m)) s0
            = (ToAll, moveMade (make_serverMove m) (fen p')
                        (timers (game s0))) :: rest).
Proof.
  intros Hengine Hreach Hover Hnr.
  assert (Hstay : mate_or_stalemate (chess (game (run evs s))) = true).
  { rewrite mated_position_stays;
      [exact Hover | exact Hengine | apply reachable_invariant; exact Hreach
      | exact Hover | exact Hnr]. }
  split; [|split; [|split]].
  - exact (proj1 (on_move_when_mated (run evs s) sid payload Hengine Hstay)).
  - intros Hseat. apply same_id_false in Hseat.
    unfold emitted_by. rewrite on_move_dropped by exact Hseat. reflexivity.
  - intros Hseat. apply same_id_true in Hseat. unfold emitted_by.
    destruct payload as [m|].
    + destruct (on_move_not_made (run evs s) sid m Hseat) as [text ->].
      * intros p'. apply Hengine. exact Hstay.
      * exists text. reflexivity.
    + rewrite on_move_no_payload by exact Hseat.
      exists no_payload_message. reflexivity.
  - intros s0 sid0 m p' Hreach0 Hseat Hmove. apply same_id_true in Hseat.
    destruct (on_move_made s0 sid0 m p' (reachable_recorded s0 Hreach0)
                Hseat Hmove) as [Hstate [rest [Hout _]]].
    split.
    + unfold step. cbn [handler_of]. rewrite Hstate.
      destruct (ends_game p'); reflexivity.
    + exists rest. exact Hout.
Qed.

(** C2, as amended: the tick that takes the running side's time to 0 (or
    below) broadcasts timerUpdate and then timeUp with the initial letter
    of that side, and nothing else: no gameOver.  It clears every
    interval, so no tick fires afterwards until a timer is started again;
    position and seats are as before. *)
Theorem expiry_broadcasts_timeUp_and_stops
    (s : Server) (h : Handle) (color : Color) :
  reachable s ->
  callback_of h s = Some color ->
  remaining color (timers (game s)) <= 1 ->
  emitted_by (on_tick h) s
  = [(ToAll, timerUpdate (decrement color (timers (game s))));
     (ToAll, timeUp (initial_letter color))]
  /\ timers (game (step (Tick h) s)) = decrement color (timers (game s))
  /\ decrementing (step (Tick h) s) = []
  /\ timerIntervals (game (step (Tick h) s)) = []
  /\ chess (game (step (Tick h) s)) = chess (game s)
  /\ players (game (step (Tick h) s)) = players (game s)
  /\ forall h', on_tick h' (step (Tick h) s)
               = (Normal tt, step (Tick h) s, []).
Proof.
  intros Hreach H Hle.
  pose proof (on_tick_expiry h color s (reachable_recorded s Hreach) H Hle)
    as Heq.
  unfold emitted_by, step, state_after. cbn [handler_of]. rewrite Heq. cbn.
  repeat split.
Qed.


(** C4, as amended: 'acceptDraw' does the same in every state: it clears
    the intervals and broadcasts the game-over announcement "Draw by
    agreement"; position, remaining times and seats are as before. *)
Theorem acceptDraw_announces_in_every_state (s : Server) (sid : SocketId) :
  reachable s ->
  emitted_by (on_acceptDraw sid) s = [(ToAll, gameOver "Draw by agreement")]
  /\ state_after (on_acceptDraw sid) s
     = mkServer
         (mkChessGame (chess (game s)) (players (game s)) (timers (game s)) [])
         [] (next_handle s).
Proof.
  intros Hreach. unfold emitted_by, state_after, on_acceptDraw, bind.
  rewrite stopTimers_recorded by (apply reachable_recorded; exact Hreach).
  split; reflexivity.
Qed.

(** C5: a 'move' event of a connection that does not hold the seat of the
    side to move leaves the whole server state as it is and emits nothing,
    to no one, whatever the payload. *)
Theorem move_of_other_connection_is_dropped
    (s : Server) (sid : SocketId) (payload : option MoveRequest) :
  seat (turnColorOf (chess (game s))) (players (game s)) <> Some sid ->
  state_after (on_move sid payload) s = s
  /\ emitted_by (on_move sid payload) s = [].
Proof.
  intros H. apply same_id_false in H.
  unfold state_after, emitted_by. rewrite on_move_dropped by exact H.
  split; reflexivity.
Qed.

(** C6: when the holder of the seat of the side to move sends a move the
    engine does not make (it returns null, or throws), the server state,
    position and remaining times included, is as before, and exactly one
    message is emitted: invalidMove, to the sender alone. *)
Theorem refused_move_is_reported_to_sender_only
    (s : Server) (sid : SocketId) (m : MoveRequest) :
  seat (turnColorOf (chess (game s))) (players (game s)) = Some sid ->
  (forall p', move (chess (game s)) (make_serverMove m) <> Moved p') ->
  state_after (on_move sid (Some m)) s = s
  /\ exists text,
       emitted_by (on_move sid (Some m)) s
       = [(ToSocket sid, invalidMove text)].
Proof.
  intros H Hno. apply same_id_true in H.
  destruct (on_move_not_made s sid m H Hno) as [text Heq].
  unfold state_after, emitted_by. rewrite Heq.
  split; [reflexivity | exists text; reflexivity].
Qed.

(** C7, as amended: in every reachable state at most one side's countdown
    is running, and a tick changes only the running side's remaining time.
    After an accepted move the running side is the opponent of the side
    that moved, unless the move ended the game (checkmate, stalemate or
    draw): then no countdown is running. *)
Theorem clock_passes_to_opponent (s : Server) :
  reachable s ->
  (List.length (decrementing s) <= 1)%nat
  /\ (forall h color,
       callback_of h s = Some color ->
       remaining (nextColorOf color) (timers (game (step (Tick h) s)))
       = remaining (nextColorOf color) (timers (game s)))
  /\ (forall sid m p',
       seat (turnColorOf (chess (game s))) (players (game s)) = Some sid ->
       move (chess (game s)) (make_serverMove m) = Moved p' ->
       decrementing (step (MoveEvent sid (Some m)) s)
       = if ends_game p' then []
         else [nextColorOf (turnColorOf (chess (game s)))]).
Proof.
  intros Hreach. pose proof (reachable_recorded s Hreach) as Hrec.
  split; [|split].
  - unfold decrementing. rewrite length_map. exact (proj2 Hrec).
  - intros h color H. rewrite (on_tick_timers h color s H).
    apply remaining_decrement_other.
  - intros sid m p' Hseat Hmove. apply same_id_true in Hseat.
    destruct (on_move_made s sid m p' Hrec Hseat Hmove) as [Hstate _].
    unfold step. cbn [handler_of]. rewrite Hstate.
    destruct (ends_game p'); reflexivity.
Qed.

(** C8: from any reachable state, [reset] leaves the initial position,
    600 seconds on both clocks, no interval (recorded or scheduled), both
    seats empty, and so the Waiting state. *)
Theorem reset_restores_initial_state (s : Server) :
  reachable s ->
  chess (game (state_after reset s)) = new_Chess
  /\ timers (game (state_after reset s)) = mkTimers 600 600
  /\ players (game (state_after reset s)) = mkPlayers None None
  /\ timerIntervals (game (state_after reset s)) = []
  /\ scheduled (state_after reset s) = []
  /\ spec_Waiting (state_after reset s) = true.
Proof.
  intros Hreach. pose proof (reachable_recorded s Hreach) as Hrec.
  unfold state_after, reset, bind, update. cbn.
  rewrite stopTimers_eq. cbn.
  rewrite (clear_all_recorded s Hrec).
  repeat split.
Qed.

(** C10: a 'disconnect' event of a connection that holds neither seat
    leaves the whole server state (seats, remaining times, intervals,
    position) as it is and emits nothing. *)
Theorem disconnect_of_spectator_is_noop (s : Server) (sid : SocketId) :
  p_white (players (game s)) <> Some sid ->
  p_black (players (game s)) <> Some sid ->
  state_after (on_disconnect sid) s = s
  /\ emitted_by (on_disconnect sid) s = [].
Proof.
  intros Hw Hb. apply same_id_false in Hw, Hb.
  unfold state_after, emitted_by, on_disconnect, bind, read. cbn.
  rewrite Hw, Hb. split; reflexivity.
Qed.

(** What [reset] of src/app.js leaves is what the older copy leaves,
    with the seats emptied. *)
Lemma reset_copies_agree_off_seats (s : Server) :
  state_after reset s
  = mkServer
      (with_players (mkPlayers None None)
         (game (state_after reset_part_000 s)))
      (scheduled (state_after reset_part_000 s))
      (next_handle (state_after reset_part_000 s)).
Proof.
  unfold state_after, reset, reset_part_000, bind, update. cbn.
  rewrite stopTimers_eq. reflexivity.
Qed.

(** C9, as amended: from every state the two copies of [reset] leave the
    same position, the same remaining times, the same (empty) record of
    intervals and the same scheduled intervals and next handle; they
    differ in the seats and in nothing else: [reset] of src/app.js
    empties both, [reset] of the older copy leaves them as they were.  So
    the two leave the same state exactly when both seats were empty
    already. *)
Theorem reset_copies_agree_except_on_seats (s : Server) :
  chess (game (state_after reset s))
  = chess (game (state_after reset_part_000 s))
  /\ timers (game (state_after reset s))
     = timers (game (state_after reset_part_000 s))
  /\ timerIntervals (game (state_after reset s))
     = timerIntervals (game (state_after reset_part_000 s))
  /\ scheduled (state_after reset s)
     = scheduled (state_after reset_part_000 s)
  /\ next_handle (state_after reset s)
     = next_handle (state_after reset_part_000 s)
  /\ players (game (state_after reset s)) = mkPlayers None None
  /\ players (game (state_after reset_part_000 s)) = players (game s)
  /\ (state_after reset s = state_after reset_part_000 s
      <-> players (game s) = mkPlayers None None).
Proof.
  assert (Hold : state_after reset_part_000 s
                 = mkServer
                     (mkChessGame new_Chess (players (game s))
                        (mkTimers 600 600) [])
                     (clear_all (map snd (timerIntervals (game s)))
                        (scheduled s))
                     (next_handle s)).
  { unfold state_after, reset_part_000, bind, update. cbn.
    rewrite stopTimers_eq. reflexivity. }
  rewrite (reset_copies_agree_off_seats s), Hold. cbn.
  repeat split.
  - intros H. injection H as H. symmetry. exact H.
  - intros H. rewrite H. reflexivity.
Qed.

End ServerFacts.

(** * The scenarios, on the opening book *)

Import Book.

Lemma book_no_move_when_mated : no_move_when_mated.
Proof.
  intros p m p' H. destruct p; try discriminate H. cbn. discriminate.
Qed.

(** C1, counterexample: after white's resignation was announced, white's
    1. e4 is applied all the same: the position changes, the move is
    broadcast and black's clock is started. *)
Lemma move_after_resignation_is_applied :
  existsb is_gameOver (transcript after_resignation boot) = true
  /\ chess (game (run after_resignation boot)) = Start
  /\ decrementing (run after_resignation boot) = []
  /\ chess (game (step (MoveEvent "A" (req "e2" "e4"))
                   (run after_resignation boot))) = After_e4
  /\ decrementing (step (MoveEvent "A" (req "e2" "e4"))
                    (run after_resignation boot)) = [black]
  /\ existsb is_broadcast
       (emitted_by (on_move "A" (req "e2" "e4")) (run after_resignation boot))
     = true.
Proof. vm_compute. repeat split. Qed.

Lemma move_ignored_after_mate_or_stalemate_witness :
  mate_or_stalemate (chess (game (run fools_mate boot))) = true
  /\ state_after (on_move "A" (req "e2" "e4"))
       (run [Connection "C"; Resign "A"] (run fools_mate boot))
     = run [Connection "C"; Resign "A"] (run fools_mate boot)
  /\ exists text,
       emitted_by (on_move "A" (req "e2" "e4"))
         (run [Connection "C"; Resign "A"] (run fools_mate boot))
       = [(ToSocket "A", invalidMove text)].
Proof.
  split; [reflexivity|].
  destruct (move_ignored_after_mate_or_stalemate (run fools_mate boot)
              [Connection "C"; Resign "A"] "A" (req "e2" "e4")
              book_no_move_when_mated
              (reachable_run fools_mate boot reachable_boot)
              eq_refl eq_refl) as [Hstate [_ [Hsender _]]].
  split; [exact Hstate | exact (Hsender eq_refl)].
Defined.

(** C2, counterexample: both seats are taken and white's last second
    ticks away: timerUpdate and timeUp "w" are broadcast, and no gameOver
    is, neither by this tick nor anywhere in the run. *)
Lemma flag_fall_announces_no_gameOver :
  both_seats_filled (run white_on_last_second boot) = true
  /\ decrementing (run white_on_last_second boot) = [white]
  /\ remaining white (timers (game (run white_on_last_second boot))) = 1
  /\ emitted_by (on_tick 0%nat) (run white_on_last_second boot)
     = [(ToAll, timerUpdate (mkTimers 0 600)); (ToAll, timeUp "w")]
  /\ existsb is_gameOver
       (transcript (white_on_last_second ++ [Tick 0%nat]) boot) = false.
Proof. vm_compute. repeat split. Qed.

Lemma expiry_broadcasts_timeUp_and_stops_witness :
  callback_of 0%nat (run white_on_last_second boot) = Some white
  /\ emitted_by (on_tick 0%nat) (run white_on_last_second boot)
     = [(ToAll, timerUpdate
                  (decrement white
                     (timers (game (run white_on_last_second boot)))));
        (ToAll, timeUp (initial_letter white))].
Proof.
  split; [vm_compute; reflexivity|].
  apply (expiry_broadcasts_timeUp_and_stops
           (run white_on_last_second boot) 0%nat white).
  - apply reachable_run. apply reachable_boot.
  - vm_compute. reflexivity.
  - apply Z.leb_le. vm_compute. reflexivity.
Defined.



(** C4, counterexample: with one seat taken the state is Waiting, and
    'acceptDraw' broadcasts the game-over announcement there too. *)
Lemma acceptDraw_while_waiting_announces :
  spec_Waiting (run [Connection "A"] boot) = true
  /\ emitted_by (on_acceptDraw "A") (run [Connection "A"] boot)
     = [(ToAll, gameOver "Draw by agreement")].
Proof. vm_compute. repeat split. Qed.

Lemma acceptDraw_announces_in_every_state_witness :
  emitted_by (on_acceptDraw "B") (run two_players boot)
  = [(ToAll, gameOver "Draw by agreement")]
  /\ state_after (on_acceptDraw "B") (run two_players boot)
     = mkServer
         (mkChessGame Start (mkPlayers (Some "A") (Some "B"))
            (mkTimers 600 600) [])
         [] 1%nat.
Proof.
  exact (acceptDraw_announces_in_every_state (run two_players boot) "B"
           (reachable_run two_players boot reachable_boot)).
Defined.

Lemma move_of_other_connection_is_dropped_witness :
  state_after (on_move "B" (req "e7" "e5")) (run two_players boot)
  = run two_players boot
  /\ emitted_by (on_move "B" (req "e7" "e5")) (run two_players boot) = [].
Proof.
  apply (move_of_other_connection_is_dropped
           (run two_players boot) "B" (req "e7" "e5")).
  cbn. discriminate.
Defined.

Lemma refused_move_is_reported_to_sender_only_witness :
  state_after (on_move "B" (req "e7" "e4"))
    (run (two_players ++ [MoveEvent "A" (req "e2" "e4")]) boot)
  = run (two_players ++ [MoveEvent "A" (req "e2" "e4")]) boot
  /\ exists text,
       emitted_by (on_move "B" (req "e7" "e4"))
         (run (two_players ++ [MoveEvent "A" (req "e2" "e4")]) boot)
       = [(ToSocket "B", invalidMove text)].
Proof.
  apply (refused_move_is_reported_to_sender_only
           (run (two_players ++ [MoveEvent "A" (req "e2" "e4")]) boot)
           "B" (plain "e7" "e4")).
  - reflexivity.
  - intros p'. cbn. discriminate.
Defined.

(** C7, counterexample: black mates with 2... Qh4; after this accepted
    move no countdown is running, where the opponent of the mover is
    white. *)
Lemma mating_move_leaves_no_clock_running :
  turnColorOf (chess (game (run fools_mate_but_one boot))) = black
  /\ seat black (players (game (run fools_mate_but_one boot))) = Some "B"
  /\ move (chess (game (run fools_mate_but_one boot)))
       (make_serverMove (plain "d8" "h4")) = Moved Mated
  /\ decrementing (run fools_mate_but_one boot) = [black]
  /\ decrementing
       (step (MoveEvent "B" (req "d8" "h4")) (run fools_mate_but_one boot))
     = [].
Proof. vm_compute. repeat split. Qed.

Lemma clock_passes_to_opponent_witness :
  decrementing
    (step (MoveEvent "A" (req "e2" "e4")) (run two_players boot))
  = [black].
Proof.
  apply (proj2 (proj2 (@clock_passes_to_opponent book (run two_players boot)
                         (reachable_run two_players boot reachable_boot)))
           "A" (plain "e2" "e4") After_e4); reflexivity.
Defined.

Lemma reset_restores_initial_state_witness :
  chess (game (state_after reset
                 (run (two_players ++ [MoveEvent "A" (req "e2" "e4");
                                       Tick 1%nat]) boot))) = new_Chess
  /\ timers (game (state_after reset
                 (run (two_players ++ [MoveEvent "A" (req "e2" "e4");
                                       Tick 1%nat]) boot))) = mkTimers 600 600
  /\ players (game (state_after reset
                 (run (two_players ++ [MoveEvent "A" (req "e2" "e4");
                                       Tick 1%nat]) boot))) = mkPlayers None None
  /\ timerIntervals (game (state_after reset
                 (run (two_players ++ [MoveEvent "A" (req "e2" "e4");
                                       Tick 1%nat]) boot))) = []
  /\ scheduled (state_after reset
                 (run (two_players ++ [MoveEvent "A" (req "e2" "e4");
                                       Tick 1%nat]) boot)) = []
  /\ spec_Waiting (state_after reset
                 (run (two_players ++ [MoveEvent "A" (req "e2" "e4");
                                       Tick 1%nat]) boot)) = true.
Proof.
  apply (reset_restores_initial_state
           (run (two_players ++ [MoveEvent "A" (req "e2" "e4"); Tick 1%nat])
              boot)).
  apply reachable_run. apply reachable_boot.
Defined.

(** C9, counterexample: the two copies of [reset] do not leave the same
    state.  With "A" on the white seat, [reset] of src/app.js empties the
    seat and [reset] of the older copy leaves "A" on it. *)
Theorem reset_copies_differ_on_seats :
  players (game (state_after reset (run [Connection "A"] boot)))
  = mkPlayers None None
  /\ players (game (state_after reset_part_000 (run [Connection "A"] boot)))
     = mkPlayers (Some "A") None
  /\ state_after reset (run [Connection "A"] boot)
     <> state_after reset_part_000 (run [Connection "A"] boot).
Proof.
  split; [reflexivity|]. split; [reflexivity|].
  intros H. apply (f_equal (fun s => p_white (players (game s)))) in H.
  vm_compute in H. discriminate H.
Qed.

Lemma disconnect_of_spectator_is_noop_witness :
  state_after (on_disconnect "C") (run two_players boot)
  = run two_players boot
  /\ emitted_by (on_disconnect "C") (run two_players boot) = [].
Proof.
  apply (disconnect_of_spectator_is_noop (run two_players boot) "C");
    cbn; discriminate.
Defined.

(** * More facts about the server *)

Section MoreServerFacts.

Context {engine : RulesEngine}.

#[local] Arguments stopTimers : simpl never.
#[local] Arguments startTimer : simpl never.

(** ** What a handler sends *)

Lemma emitted_by_bind {A B} (c : Handler A) (k : A -> Handler B) (s : Server) :
  emitted_by (bind c k) s
  = match c s with
    | (Normal a, s1, out1) => out1 ++ emitted_by (k a) s1
    | (Thrown _, _, out1) => out1
    end.
Proof.
  unfold emitted_by, bind.
  destruct (c s) as [[[a|msg] s1] out1]; [|reflexivity].
  destruct (k a s1) as [[r s2] out2]. reflexivity.
Qed.

Lemma sends_only_bind {A B} P (c : Handler A) (k : A -> Handler B) :
  sends_only P c -> (forall a, sends_only P (k a)) -> sends_only P (bind c k).
Proof.
  intros Hc Hk s. rewrite emitted_by_bind. specialize (Hc s).
  unfold emitted_by in Hc.
  destruct (c s) as [[[a|msg] s1] out1]; cbn in Hc.
  - rewrite forallb_app, Hc. exact (Hk a s1).
  - exact Hc.
Qed.

Lemma sends_only_try_catch P (body : Handler unit)
    (handler : string -> Handler unit) :
  sends_only P body -> (forall msg, sends_only P (handler msg)) ->
  sends_only P (try_catch body handler).
Proof.
  intros Hb Hh s. specialize (Hb s). unfold emitted_by, try_catch in *.
  destruct (body s) as [[[a|msg] s1] out1]; cbn in *.
  - exact Hb.
  - specialize (Hh msg s1). unfold emitted_by in Hh.
    destruct (handler msg s1) as [[r s2] out2]. cbn in *.
    rewrite forallb_app, Hb. exact Hh.
Qed.

Lemma sends_only_silent {A} P (c : Handler A) :
  (forall s, emitted_by c s = []) -> sends_only P c.
Proof. intros H s. rewrite H. reflexivity. Qed.

Lemma stopTimers_silent (s : Server) : emitted_by stopTimers s = [].
Proof. unfold emitted_by. rewrite stopTimers_eq. reflexivity. Qed.

Lemma startTimer_silent (color : Color) (s : Server) :
  emitted_by (startTimer color) s = [].
Proof. unfold emitted_by. rewrite startTimer_eq. reflexivity. Qed.

Lemma chess_move_silent (serverMove : ServerMove) (s : Server) :
  emitted_by (chess_move serverMove) s = [].
Proof.
  unfold emitted_by, chess_move.
  destruct (move (chess (game s)) serverMove); reflexivity.
Qed.

Lemma properties_of_silent (payload : option MoveRequest) (s : Server) :
  emitted_by (properties_of payload) s = [].
Proof. destruct payload; reflexivity. Qed.

Lemma sends_only_io_emit P (m : Message) :
  P (ToAll, m) = true -> sends_only P (io_emit m).
Proof. intros H s. cbn. rewrite H. reflexivity. Qed.

Lemma sends_only_socket_emit P (sid : SocketId) (m : Message) :
  P (ToSocket sid, m) = true -> sends_only P (socket_emit sid m).
Proof. intros H s. cbn. rewrite H. reflexivity. Qed.

Lemma sends_only_socket_broadcast_emit P (sid : SocketId) (m : Message) :
  P (ToAllBut sid, m) = true -> sends_only P (socket_broadcast_emit sid m).
Proof. intros H s. cbn. rewrite H. reflexivity. Qed.

(** Splits a handler along its binds and conditionals; [leaf] closes
    the emissions. *)
Ltac sends_steps leaf :=
  repeat first
    [ apply sends_only_silent; intro;
      first [ apply stopTimers_silent | apply startTimer_silent
            | apply chess_move_silent | apply properties_of_silent
            | reflexivity ]
    | apply sends_only_io_emit; leaf
    | apply sends_only_socket_emit; leaf
    | apply sends_only_socket_broadcast_emit; leaf
    | match goal with
      | |- forall _, _ => intro
      | |- sends_only _ (if ?b then _ else _) => destruct b
      | |- sends_only _ (try_catch _ _) => apply sends_only_try_catch
      | |- sends_only _ (bind _ _) => apply sends_only_bind
      end ].

Lemma public_or_to_self (sid : SocketId) (m : Message) :
  public_or_to (Some sid) (ToSocket sid, m) = true.
Proof. cbn. apply String.eqb_refl. Qed.

Lemma sends_only_on_interval (color : Color) :
  sends_only is_broadcast (on_interval color).
Proof. unfold on_interval. sends_steps reflexivity. Qed.

(** ** What a handler leaves alone *)

Lemma frames_bind {A B C} (f : ChessGame -> C) (c : Handler A)
    (k : A -> Handler B) :
  frames f c -> (forall a, frames f (k a)) -> frames f (bind c k).
Proof.
  intros Hc Hk s. specialize (Hc s). unfold state_after, bind in *.
  destruct (c s) as [[[a|msg] s1] out1]; cbn in *.
  - specialize (Hk a s1). unfold state_after in Hk.
    destruct (k a s1) as [[r s2] out2]. cbn in *. congruence.
  - exact Hc.
Qed.

Lemma frames_try_catch {C} (f : ChessGame -> C) (body : Handler unit)
    (handler : string -> Handler unit) :
  frames f body -> (forall msg, frames f (handler msg)) ->
  frames f (try_catch body handler).
Proof.
  intros Hb Hh s. specialize (Hb s). unfold state_after, try_catch in *.
  destruct (body s) as [[[a|msg] s1] out1]; cbn in *.
  - exact Hb.
  - specialize (Hh msg s1). unfold state_after in Hh.
    destruct (handler msg s1) as [[r s2] out2]. cbn in *. congruence.
Qed.

Lemma frames_same_game {A C} (f : ChessGame -> C) (c : Handler A) :
  (forall s, game (state_after c s) = game s) -> frames f c.
Proof. intros H s. rewrite H. reflexivity. Qed.

Lemma frames_update {C} (f : ChessGame -> C) (u : ChessGame -> ChessGame) :
  (forall g, f (u g) = f g) -> frames f (update u).
Proof. intros H s. exact (H (game s)). Qed.

Lemma frames_stopTimers {C} (f : ChessGame -> C) :
  (forall i g, f (with_timerIntervals i g) = f g) -> frames f stopTimers.
Proof.
  intros H s. unfold state_after. rewrite stopTimers_eq. cbn. apply H.
Qed.

Lemma frames_startTimer {C} (f : ChessGame -> C) (color : Color) :
  (forall i g, f (with_timerIntervals i g) = f g) ->
  frames f (startTimer color).
Proof.
  intros H s. unfold state_after. rewrite startTimer_eq. cbn. apply H.
Qed.

Lemma frames_chess_move {C} (f : ChessGame -> C) (serverMove : ServerMove) :
  (forall c g, f (with_chess c g) = f g) -> frames f (chess_move serverMove).
Proof.
  intros H s. unfold state_after, chess_move.
  destruct (move (chess (game s)) serverMove); cbn;
    [apply H | reflexivity | reflexivity].
Qed.

Lemma frames_properties_of {C} (f : ChessGame -> C)
    (payload : option MoveRequest) :
  frames f (properties_of payload).
Proof. destruct payload; intros s; reflexivity. Qed.

(** Splits a handler along its binds and conditionals. *)
Ltac frames_steps :=
  repeat first
    [ apply frames_stopTimers; reflexivity
    | apply frames_startTimer; reflexivity
    | apply frames_chess_move; reflexivity
    | apply frames_properties_of
    | apply frames_update; reflexivity
    | apply frames_same_game; reflexivity
    | match goal with
      | |- forall _, _ => intro
      | |- frames _ (if ?b then _ else _) => destruct b
      | |- frames _ (try_catch _ _) => apply frames_try_catch
      | |- frames _ (bind _ _) => apply frames_bind
      end ].

(** X1: a private message is only ever sent to the socket whose event is
    being handled, and a message to all but one connection leaves out
    that socket and no other; everything a tick or the reset request
    emits goes to everybody. *)
Theorem private_messages_go_to_the_sender (ev : Event) (s : Server) :
  forallb (public_or_to (sender_of ev)) (emitted_by (handler_of ev) s) = true.
Proof.
  revert s. change (sends_only (public_or_to (sender_of ev)) (handler_of ev)).
  destruct ev as [sid|sid payload|sid|sid|sid|sid| |h];
    cbn [handler_of sender_of].
  - unfold on_connection. sends_steps ltac:(apply public_or_to_self).
  - unfold on_move, announce_end.
    sends_steps ltac:(first [apply public_or_to_self | reflexivity]).
  - unfold on_offerDraw.
    sends_steps ltac:(cbn; apply String.eqb_refl).
  - unfold on_acceptDraw. sends_steps reflexivity.
  - unfold on_resign. sends_steps reflexivity.
  - unfold on_disconnect. sends_steps reflexivity.
  - unfold on_get_reset, reset. sends_steps reflexivity.
  - intros s. unfold emitted_by, on_tick.
    destruct (callback_of h s) as [color|]; [|reflexivity].
    revert s. change (sends_only (public_or_to None) (on_interval color)).
    unfold on_interval. sends_steps reflexivity.
Qed.

(** X2: the remaining times change on a tick and on a reset only: every
    other event (connection, move, draw offer and acceptance,
    resignation, disconnect) leaves both as they are. *)
Theorem only_ticks_and_reset_change_the_clocks (ev : Event) (s : Server) :
  is_tick ev = false ->
  is_reset ev = false ->
  timers (game (step ev s)) = timers (game s).
Proof.
  intros Ht Hr. revert s. change (frames timers (handler_of ev)).
  destruct ev as [sid|sid payload|sid|sid|sid|sid| |h];
    try discriminate; cbn [handler_of].
  - unfold on_connection. frames_steps.
  - unfold on_move, announce_end. frames_steps.
  - unfold on_offerDraw. frames_steps.
  - unfold on_acceptDraw. frames_steps.
  - unfold on_resign. frames_steps.
  - unfold on_disconnect. frames_steps.
Qed.

(** X3: the seats change on a connection, a disconnect and a reset only:
    a move, a draw offer or acceptance, a resignation and a tick leave
    both seats as they are (so a resigned or flagged player keeps the
    seat). *)
Theorem only_seating_events_change_the_seats (ev : Event) (s : Server) :
  is_seating ev = false ->
  players (game (step ev s)) = players (game s).
Proof.
  intros Hs. revert s. change (frames players (handler_of ev)).
  destruct ev as [sid|sid payload|sid|sid|sid|sid| |h];
    try discriminate; cbn [handler_of].
  - unfold on_move, announce_end. frames_steps.
  - unfold on_offerDraw. frames_steps.
  - unfold on_acceptDraw. frames_steps.
  - unfold on_resign. frames_steps.
  - intros s. unfold state_after, on_tick.
    destruct (callback_of h s) as [color|]; [|reflexivity].
    revert s. change (frames players (on_interval color)).
    unfold on_interval. frames_steps.
Qed.

(** X4: the position changes on a move and on a reset only; connections,
    draws, resignations, disconnects and ticks leave it as it is. *)
Theorem only_moves_and_reset_change_the_position (ev : Event) (s : Server) :
  is_move ev = false ->
  is_reset ev = false ->
  chess (game (step ev s)) = chess (game s).
Proof.
  intros Hm Hr. revert s. change (frames chess (handler_of ev)).
  destruct ev as [sid|sid payload|sid|sid|sid|sid| |h];
    try discriminate; cbn [handler_of].
  - unfold on_connection. frames_steps.
  - unfold on_offerDraw. frames_steps.
  - unfold on_acceptDraw. frames_steps.
  - unfold on_resign. frames_steps.
  - unfold on_disconnect. frames_steps.
  - intros s. unfold state_after, on_tick.
    destruct (callback_of h s) as [color|]; [|reflexivity].
    revert s. change (frames chess (on_interval color)).
    unfold on_interval. frames_steps.
Qed.

(** ** Connections *)

Lemma on_connection_white (sid : SocketId) (s : Server) :
  falsy (p_white (players (game s))) = true ->
  on_connection sid s
  = (Normal tt,
     mkServer
       (with_players (mkPlayers (Some sid) (p_black (players (game s))))
          (game s))
       (scheduled s) (next_handle s),
     [(ToSocket sid, playerRole "w");
      (ToSocket sid, gameState (fen (chess (game s))) (timers (game s)))]).
Proof.
  intros H. unfold on_connection, bind, read. cbn. rewrite H. reflexivity.
Qed.

Lemma on_connection_black (sid : SocketId) (s : Server) :
  intervals_recorded s ->
  falsy (p_white (players (game s))) = false ->
  falsy (p_black (players (game s))) = true ->
  on_connection sid s
  = (Normal tt,
     mkServer
       (mkChessGame (chess (game s))
          (mkPlayers (p_white (players (game s))) (Some sid))
          (timers (game s)) [(white, next_handle s)])
       [(next_handle s, white)] (S (next_handle s)),
     [(ToSocket sid, playerRole "b");
      (ToSocket sid, gameState (fen (chess (game s))) (timers (game s)))]).
Proof.
  intros Hrec Hw Hb. unfold on_connection, bind, read. cbn.
  rewrite Hw, Hb. cbn. rewrite startTimer_eq. cbn.
  rewrite (clear_all_recorded s Hrec). reflexivity.
Qed.

Lemma on_connection_spectator (sid : SocketId) (s : Server) :
  falsy (p_white (players (game s))) = false ->
  falsy (p_black (players (game s))) = false ->
  on_connection sid s
  = (Normal tt, s,
     [(ToSocket sid, spectatorRole);
      (ToSocket sid, gameState (fen (chess (game s))) (timers (game s)))]).
Proof.
  intros Hw Hb. unfold on_connection, bind, read. cbn.
  rewrite Hw, Hb. reflexivity.
Qed.

Lemma falsy_Some (sid : SocketId) : sid <> "" -> falsy (Some sid) = false.
Proof. intros H. cbn. apply String.eqb_neq. exact H. Qed.

(** X5: a connection never takes a seat that is taken: a seat holding a
    non-empty socket id is the same after any connection event. *)
Theorem connection_never_evicts (sid : SocketId) (color : Color) (s : Server) :
  falsy (seat color (players (game s))) = false ->
  seat color (players (game (step (Connection sid) s)))
  = seat color (players (game s)).
Proof.
  intros H. unfold step, state_after. cbn [handler_of].
  unfold on_connection, bind, read. cbn.
  destruct (falsy (p_white (players (game s)))) eqn:Hw; cbn.
  - destruct color; cbn in *; [congruence | reflexivity].
  - destruct (falsy (p_black (players (game s)))) eqn:Hb; cbn.
    + rewrite startTimer_eq. destruct color; cbn in *; [reflexivity | congruence].
    + reflexivity.
Qed.

(** X6: when both seats are taken, a connection changes nothing of the
    server, and the newcomer is sent spectatorRole and then the current
    position and remaining times, privately. *)
Theorem connection_to_full_table_is_spectator (sid : SocketId) (s : Server) :
  falsy (p_white (players (game s))) = false ->
  falsy (p_black (players (game s))) = false ->
  state_after (on_connection sid) s = s
  /\ emitted_by (on_connection sid) s
     = [(ToSocket sid, spectatorRole);
        (ToSocket sid, gameState (fen (chess (game s))) (timers (game s)))].
Proof.
  intros Hw Hb. unfold state_after, emitted_by.
  rewrite on_connection_spectator by assumption. split; reflexivity.
Qed.

(** X7: with both seats empty, the first connection gets white and the
    second black, and the second starts white's countdown, and only
    white's; position and remaining times are untouched, and a third
    connection is a spectator. *)
Theorem seats_go_to_the_first_two_connections
    (a b c : SocketId) (s : Server) :
  reachable s ->
  players (game s) = mkPlayers None None ->
  a <> "" -> b <> "" ->
  players (game (run [Connection a; Connection b] s))
  = mkPlayers (Some a) (Some b)
  /\ decrementing (run [Connection a; Connection b] s) = [white]
  /\ timers (game (run [Connection a; Connection b] s)) = timers (game s)
  /\ chess (game (run [Connection a; Connection b] s)) = chess (game s)
  /\ run [Connection a; Connection b; Connection c] s
     = run [Connection a; Connection b] s.
Proof.
  intros Hreach Hp Ha Hb.
  pose proof (reachable_recorded s Hreach) as Hrec.
  assert (H1 : step (Connection a) s
               = mkServer
                   (with_players (mkPlayers (Some a) None) (game s))
                   (scheduled s) (next_handle s)).
  { unfold step, state_after. cbn [handler_of].
    rewrite on_connection_white by (rewrite Hp; reflexivity).
    rewrite Hp. reflexivity. }
  assert (H2 : run [Connection a; Connection b] s
               = mkServer
                   (mkChessGame (chess (game s)) (mkPlayers (Some a) (Some b))
                      (timers (game s)) [(white, next_handle s)])
                   [(next_handle s, white)] (S (next_handle s))).
  { cbn [run]. rewrite H1. unfold step, state_after. cbn [handler_of].
    rewrite on_connection_black.
    - reflexivity.
    - exact Hrec.
    - cbn. apply String.eqb_neq. exact Ha.
    - reflexivity. }
  change (run [Connection a; Connection b; Connection c] s)
    with (step (Connection c) (run [Connection a; Connection b] s)).
  rewrite H2. cbn [game players timers chess decrementing scheduled map snd].
  repeat split.
  unfold step, state_after. cbn [handler_of].
  rewrite on_connection_spectator; [reflexivity | |]; cbn;
    apply String.eqb_neq; assumption.
Qed.

(** X8: a connection that takes the white seat starts no countdown and
    stops none; a connection that takes the black seat starts white's
    countdown, whichever side is to move, and leaves none other running. *)
Theorem only_the_black_seat_starts_the_clock (sid : SocketId) (s : Server) :
  reachable s ->
  (falsy (p_white (players (game s))) = true ->
   scheduled (step (Connection sid) s) = scheduled s)
  /\ (falsy (p_white (players (game s))) = false ->
      falsy (p_black (players (game s))) = true ->
      decrementing (step (Connection sid) s) = [white]).
Proof.
  intros Hreach. pose proof (reachable_recorded s Hreach) as Hrec.
  unfold step, state_after. cbn [handler_of]. split.
  - intros Hw. rewrite on_connection_white by exact Hw. reflexivity.
  - intros Hw Hb. rewrite on_connection_black by assumption. reflexivity.
Qed.

(** ** Disconnects and resignations *)

(** X9: when the holder of a seat disconnects, that seat is emptied and
    the other kept, every interval is cleared, position and remaining
    times stay, and one playerDisconnected with the name of the seat is
    broadcast; the white seat is looked at first. *)
Theorem disconnect_of_seat_holder (sid : SocketId) (s : Server) :
  reachable s ->
  (p_white (players (game s)) = Some sid ->
   on_disconnect sid s
   = (Normal tt,
      mkServer
        (mkChessGame (chess (game s))
           (mkPlayers None (p_black (players (game s))))
           (timers (game s)) [])
        [] (next_handle s),
      [(ToAll, playerDisconnected "white")]))
  /\ (p_white (players (game s)) <> Some sid ->
      p_black (players (game s)) = Some sid ->
      on_disconnect sid s
      = (Normal tt,
         mkServer
           (mkChessGame (chess (game s))
              (mkPlayers (p_white (players (game s))) None)
              (timers (game s)) [])
           [] (next_handle s),
         [(ToAll, playerDisconnected "black")])).
Proof.
  intros Hreach. pose proof (reachable_recorded s Hreach) as Hrec. split.
  - intros Hw. apply same_id_true in Hw.
    unfold on_disconnect, bind, read. cbn. rewrite Hw. cbn.
    rewrite stopTimers_eq. cbn. rewrite (clear_all_recorded s Hrec).
    reflexivity.
  - intros Hw Hb. apply same_id_false in Hw. apply same_id_true in Hb.
    unfold on_disconnect, bind, read. cbn. rewrite Hw, Hb. cbn.
    rewrite stopTimers_eq. cbn. rewrite (clear_all_recorded s Hrec).
    reflexivity.
Qed.

(** X10: a seat left by a disconnect goes to the next connection,
    whoever it is.  A newcomer on the white seat finds no countdown
    running; a newcomer on the black seat (white being seated) starts
    white's. *)
Theorem vacated_seat_goes_to_the_next_connection
    (sid newcomer : SocketId) (s : Server) :
  reachable s ->
  (p_white (players (game s)) = Some sid ->
   players (game (run [Disconnect sid; Connection newcomer] s))
   = mkPlayers (Some newcomer) (p_black (players (game s)))
   /\ decrementing (run [Disconnect sid; Connection newcomer] s) = [])
  /\ (p_white (players (game s)) <> Some sid ->
      falsy (p_white (players (game s))) = false ->
      p_black (players (game s)) = Some sid ->
      players (game (run [Disconnect sid; Connection newcomer] s))
      = mkPlayers (p_white (players (game s))) (Some newcomer)
      /\ decrementing (run [Disconnect sid; Connection newcomer] s)
         = [white]).
Proof.
  intros Hreach.
  destruct (disconnect_of_seat_holder sid s Hreach) as [HW HB].
  split.
  - intros Hw.
    assert (H1 : step (Disconnect sid) s
                 = mkServer
                     (mkChessGame (chess (game s))
                        (mkPlayers None (p_black (players (game s))))
                        (timers (game s)) [])
                     [] (next_handle s)).
    { unfold step, state_after. cbn [handler_of]. rewrite (HW Hw).
      reflexivity. }
    cbn [run]. rewrite H1. unfold step, state_after. cbn [handler_of].
    rewrite on_connection_white by reflexivity. split; reflexivity.
  - intros Hw Hf Hb.
    assert (H1 : step (Disconnect sid) s
                 = mkServer
                     (mkChessGame (chess (game s))
                        (mkPlayers (p_white (players (game s))) None)
                        (timers (game s)) [])
                     [] (next_handle s)).
    { unfold step, state_after. cbn [handler_of]. rewrite (HB Hw Hb).
      reflexivity. }
    cbn [run]. rewrite H1. unfold step, state_after. cbn [handler_of].
    rewrite on_connection_black;
      [split; reflexivity | | exact Hf | reflexivity].
    split; cbn; [reflexivity | lia].
Qed.

(** X11: a resignation, from whomever, clears every interval, leaves
    position, seats and remaining times, and broadcasts one game-over
    announcement: "White resigns. Black wins!" from the white seat,
    "Black resigns. White wins!" from the black seat, and "Player
    resigns. Opponent wins!" from a connection that holds no seat. *)
Theorem resignation_is_announced_by_seat (sid : SocketId) (s : Server) :
  reachable s ->
  state_after (on_resign sid) s
  = mkServer
      (mkChessGame (chess (game s)) (players (game s)) (timers (game s)) [])
      [] (next_handle s)
  /\ emitted_by (on_resign sid) s
     = [(ToAll, gameOver
           (if same_id sid (p_white (players (game s)))
            then "White resigns. Black wins!"
            else if same_id sid (p_black (players (game s)))
            then "Black resigns. White wins!"
            else "Player resigns. Opponent wins!"))].
Proof.
  intros Hreach. pose proof (reachable_recorded s Hreach) as Hrec.
  unfold state_after, emitted_by, on_resign, bind, read.
  rewrite stopTimers_recorded by exact Hrec. cbn.
  unfold resigningColorOf. cbn.
  destruct (same_id sid (p_white (players (game s))));
    [|destruct (same_id sid (p_black (players (game s))))];
    split; reflexivity.
Qed.

(** ** Moves *)

(** X12: the move handed to the engine always names a promotion piece:
    the one of the request when it has a non-empty one, and the queen
    when the request has none or an empty one; the squares are passed
    on as they are. *)
Theorem promotion_defaults_to_queen (m : MoveRequest) :
  sm_promotion (make_serverMove m) <> ""
  /\ (forall piece,
       promotion m = Some piece -> piece <> "" ->
       sm_promotion (make_serverMove m) = piece)
  /\ (promotion m = None \/ promotion m = Some "" ->
      sm_promotion (make_serverMove m) = "q")
  /\ sm_from (make_serverMove m) = from m
  /\ sm_to (make_serverMove m) = to m.
Proof.
  destruct m as [f t [piece|]]; cbn.
  - destruct (String.eqb piece "") eqn:He.
    + apply String.eqb_eq in He. subst piece.
      repeat split; try discriminate.
      intros piece H Hne. congruence.
    + apply String.eqb_neq in He. repeat split.
      * exact He.
      * intros piece' H Hne. congruence.
      * intros [H|H]; [discriminate | congruence].
  - repeat split; try discriminate.
Qed.

(** X13: a move the engine makes for the holder of the seat to move is
    broadcast once, with the new position and the remaining times, and
    is followed by at most one game-over announcement: checkmate (naming
    the mover as winner) before stalemate before draw.  The position
    becomes the engine's; seats and remaining times stay. *)
Theorem accepted_move_is_broadcast_then_judged
    (s : Server) (sid : SocketId) (m : MoveRequest) (p' : Position) :
  reachable s ->
  seat (turnColorOf (chess (game s))) (players (game s)) = Some sid ->
  move (chess (game s)) (make_serverMove m) = Moved p' ->
  emitted_by (on_move sid (Some m)) s
  = (ToAll, moveMade (make_serverMove m) (fen p') (timers (game s)))
    :: end_announcement (turnColorOf (chess (game s))) p'
  /\ chess (game (step (MoveEvent sid (Some m)) s)) = p'
  /\ players (game (step (MoveEvent sid (Some m)) s)) = players (game s)
  /\ timers (game (step (MoveEvent sid (Some m)) s)) = timers (game s).
Proof.
  intros Hreach Hseat Hmove.
  pose proof (reachable_recorded s Hreach) as Hrec.
  apply same_id_true in Hseat.
  unfold step, state_after, emitted_by. cbn [handler_of].
  unfold on_move, try_catch, bind, read.
  rewrite Hseat. cbn. unfold chess_move. rewrite Hmove. cbn.
  rewrite stopTimers_eq. cbn. rewrite clear_all_recorded by exact Hrec.
  rewrite startTimer_eq. cbn.
  unfold announce_end, end_announcement, bind, read. cbn.
  destruct (in_checkmate p'); [|destruct (in_stalemate p');
    [|destruct (in_draw p')]]; cbn;
    try (rewrite stopTimers_eq; cbn);
    repeat split.
Qed.

(** ** The reset request *)

(** X14: the reset request leaves the server as it was booted, but for
    the handles already given out, and broadcasts one reset message with
    the initial position and 600 seconds for both sides. *)
Theorem reset_request_restarts_the_server (s : Server) :
  reachable s ->
  state_after on_get_reset s = mkServer new_ChessGame [] (next_handle s)
  /\ emitted_by on_get_reset s
     = [(ToAll, resetDone (fen new_Chess) (mkTimers 600 600))].
Proof.
  intros Hreach. pose proof (reachable_recorded s Hreach) as Hrec.
  unfold state_after, emitted_by, on_get_reset, reset, bind, update, read.
  cbn. rewrite stopTimers_eq. cbn. rewrite (clear_all_recorded s Hrec).
  split; reflexivity.
Qed.

(** ** Ticks and handles *)

Lemma on_tick_running (h : Handle) (color : Color) (s : Server) :
  callback_of h s = Some color ->
  1 < remaining color (timers (game s)) ->
  on_tick h s
  = (Normal tt,
     mkServer (with_timers (decrement color (timers (game s))) (game s))
       (scheduled s) (next_handle s),
     [(ToAll, timerUpdate (decrement color (timers (game s))))]).
Proof.
  intros H Hlt. unfold on_tick. rewrite H.
  unfold on_interval, bind, read. cbn. rewrite remaining_decrement.
  replace (remaining color (timers (game s)) - 1 <=? 0) with false
    by (symmetry; apply Z.leb_gt; lia).
  reflexivity.
Qed.

(** X15: a tick that leaves the running side more than 0 seconds
    broadcasts the new remaining times and nothing else, takes one second
    from that side only, and leaves the countdown running. *)
Theorem tick_before_expiry_only_updates
    (h : Handle) (color : Color) (s : Server) :
  callback_of h s = Some color ->
  1 < remaining color (timers (game s)) ->
  emitted_by (on_tick h) s
  = [(ToAll, timerUpdate (decrement color (timers (game s))))]
  /\ timers (game (step (Tick h) s)) = decrement color (timers (game s))
  /\ scheduled (step (Tick h) s) = scheduled s
  /\ callback_of h (step (Tick h) s) = Some color.
Proof.
  intros H Hlt. unfold emitted_by, step, state_after. cbn [handler_of].
  rewrite (on_tick_running h color s H Hlt). cbn.
  repeat split. exact H.
Qed.

Lemma callback_of_None (h : Handle) (s : Server) :
  callback_of h s = None
  <-> find (fun e => Nat.eqb (fst e) h) (scheduled s) = None.
Proof.
  unfold callback_of.
  destruct (find (fun e => Nat.eqb (fst e) h) (scheduled s)) as [[h' c]|];
    split; congruence.
Qed.

Lemma find_filter_None {A} (p q : A -> bool) (l : list A) :
  find p l = None -> find p (filter q l) = None.
Proof.
  induction l as [|x l IH]; cbn; [reflexivity|].
  destruct (p x) eqn:Hp; [discriminate|]. intros H.
  destruct (q x); cbn; [rewrite Hp|]; apply IH; exact H.
Qed.

Lemma find_snoc_None {A} (p : A -> bool) (l : list A) (x : A) :
  find p l = None -> find p (l ++ [x]) = if p x then Some x else None.
Proof.
  induction l as [|y l IH]; cbn; [reflexivity|].
  destruct (p y); [discriminate | exact IH].
Qed.

Lemma never_revives_bind {A B} (c : Handler A) (k : A -> Handler B) :
  never_revives c -> (forall a, never_revives (k a)) ->
  never_revives (bind c k).
Proof.
  intros Hc Hk s Hs. destruct (Hc s Hs) as [H1 [H2 H3]].
  unfold state_after, bind in *.
  destruct (c s) as [[[a|msg] s1] out1]; cbn in *.
  - destruct (Hk a s1 H1) as [K1 [K2 K3]]. unfold state_after in *.
    destruct (k a s1) as [[r s2] out2]. cbn in *.
    split; [exact K1 | split; [lia|]].
    intros h Hlt Hnone. apply K3; [lia | apply H3; assumption].
  - split; [exact H1 | split; [exact H2 | exact H3]].
Qed.

Lemma never_revives_try_catch (body : Handler unit)
    (handler : string -> Handler unit) :
  never_revives body -> (forall msg, never_revives (handler msg)) ->
  never_revives (try_catch body handler).
Proof.
  intros Hb Hh s Hs. destruct (Hb s Hs) as [H1 [H2 H3]].
  unfold state_after, try_catch in *.
  destruct (body s) as [[[a|msg] s1] out1]; cbn in *.
  - split; [exact H1 | split; [exact H2 | exact H3]].
  - destruct (Hh msg s1 H1) as [K1 [K2 K3]]. unfold state_after in *.
    destruct (handler msg s1) as [[r s2] out2]. cbn in *.
    split; [exact K1 | split; [lia|]].
    intros h Hlt Hnone. apply K3; [lia | apply H3; assumption].
Qed.

(** A handler that touches the game only. *)
Lemma never_revives_game_only {A} (c : Handler A) :
  (forall s, scheduled (state_after c s) = scheduled s
             /\ next_handle (state_after c s) = next_handle s) ->
  never_revives c.
Proof.
  intros H s Hs. destruct (H s) as [Hsch Hnext].
  assert (Hcb : forall h, callback_of h (state_after c s) = callback_of h s).
  { intros h. unfold callback_of. rewrite Hsch. reflexivity. }
  split; [|split].
  - intros h Hh. rewrite Hnext. apply Hs. rewrite <- Hcb. exact Hh.
  - rewrite Hnext. lia.
  - intros h _ Hnone. rewrite Hcb. exact Hnone.
Qed.

Lemma never_revives_clearInterval (h' : Handle) :
  never_revives (clearInterval h').
Proof.
  intros s Hs.
  assert (Hcb : forall h, callback_of h s = None ->
                          callback_of h (state_after (clearInterval h') s)
                          = None).
  { intros h Hnone. apply callback_of_None. apply callback_of_None in Hnone.
    cbn. apply find_filter_None. exact Hnone. }
  split; [|split].
  - intros h Hh. cbn. apply Hs. intros Hnone. apply Hh. apply Hcb.
    exact Hnone.
  - cbn. lia.
  - intros h _ Hnone. apply Hcb. exact Hnone.
Qed.

Lemma never_revives_setInterval (color : Color) :
  never_revives (setInterval color).
Proof.
  intros s Hs.
  assert (Hcb : forall h, callback_of h s = None ->
                          h <> next_handle s ->
                          callback_of h (state_after (setInterval color) s)
                          = None).
  { intros h Hnone Hne. apply callback_of_None.
    apply callback_of_None in Hnone. cbn.
    rewrite find_snoc_None by exact Hnone. cbn.
    destruct (Nat.eqb (next_handle s) h) eqn:He; [|reflexivity].
    apply Nat.eqb_eq in He. congruence. }
  split; [|split].
  - intros h Hh. cbn.
    destruct (Nat.eq_dec h (next_handle s)) as [->|Hne]; [lia|].
    destruct (callback_of h s) eqn:Hc.
    + assert (h < next_handle s)%nat by (apply Hs; congruence). lia.
    + exfalso. apply Hh. apply Hcb; assumption.
  - cbn. lia.
  - intros h Hlt Hnone. apply Hcb; [exact Hnone | lia].
Qed.

Lemma never_revives_forEach_clearInterval (hs : list Handle) :
  never_revives (forEach hs clearInterval).
Proof.
  induction hs as [|h' rest IH]; cbn [forEach].
  - apply never_revives_game_only. intros s. split; reflexivity.
  - apply never_revives_bind; [apply never_revives_clearInterval|].
    intros _. exact IH.
Qed.

(** Splits a handler along its binds and conditionals. *)
Ltac revives_steps :=
  repeat first
    [ apply never_revives_forEach_clearInterval
    | apply never_revives_setInterval
    | apply never_revives_game_only; intro; split; reflexivity
    | match goal with
      | |- forall _, _ => intro
      | |- never_revives (if ?b then _ else _) => destruct b
      | |- never_revives (properties_of ?p) => destruct p
      | |- never_revives (try_catch _ _) => apply never_revives_try_catch
      | |- never_revives (bind _ _) => apply never_revives_bind
      end ].

Lemma never_revives_chess_move (serverMove : ServerMove) :
  never_revives (chess_move serverMove).
Proof.
  apply never_revives_game_only. intros s. unfold state_after, chess_move.
  destruct (move (chess (game s)) serverMove); split; reflexivity.
Qed.

Lemma never_revives_on_interval (color : Color) :
  never_revives (on_interval color).
Proof. unfold on_interval, stopTimers. revives_steps. Qed.

Lemma never_revives_handler_of (ev : Event) : never_revives (handler_of ev).
Proof.
  destruct ev as [sid|sid payload|sid|sid|sid|sid| |h]; cbn [handler_of].
  - unfold on_connection, startTimer, stopTimers. revives_steps.
  - unfold on_move. apply never_revives_try_catch; [|revives_steps].
    apply never_revives_bind; [revives_steps|]. intros c.
    apply never_revives_bind; [revives_steps|]. intros allowed.
    destruct (negb (same_id sid allowed)); [revives_steps|].
    apply never_revives_bind; [revives_steps|]. intros m.
    apply never_revives_bind; [apply never_revives_chess_move|].
    intros result. unfold announce_end, startTimer, stopTimers.
    revives_steps.
  - unfold on_offerDraw. revives_steps.
  - unfold on_acceptDraw, stopTimers. revives_steps.
  - unfold on_resign, stopTimers. revives_steps.
  - unfold on_disconnect, stopTimers. revives_steps.
  - unfold on_get_reset, reset, stopTimers. revives_steps.
  - intros s Hs.
    assert (Heq : state_after (on_tick h) s
                  = match callback_of h s with
                    | Some color => state_after (on_interval color) s
                    | None => s
                    end).
    { unfold state_after, on_tick. destruct (callback_of h s); reflexivity. }
    rewrite Heq. destruct (callback_of h s) as [color|] eqn:Hc.
    + apply never_revives_on_interval. exact Hs.
    + split; [exact Hs | split; [lia|]]. intros; assumption.
Qed.

Lemma reachable_handles_given_out (s : Server) :
  reachable s -> handles_given_out s.
Proof.
  induction 1 as [|ev s _ IH].
  - intros h Hh. exfalso. apply Hh. reflexivity.
  - exact (proj1 (never_revives_handler_of ev s IH)).
Qed.

(** X16: an interval that was cleared never fires again: once a handle
    that was given out is no longer scheduled, no later event schedules
    it again, so its tick does nothing, ever. *)
Theorem cleared_interval_never_fires_again
    (h : Handle) (s : Server) (evs : list Event) :
  reachable s ->
  (h < next_handle s)%nat ->
  callback_of h s = None ->
  on_tick h (run evs s) = (Normal tt, run evs s, []).
Proof.
  intros Hreach Hlt Hnone. apply on_tick_cleared.
  apply reachable_handles_given_out in Hreach.
  revert s Hreach Hlt Hnone.
  induction evs as [|ev rest IH]; intros s Hs Hlt Hnone; cbn [run].
  - exact Hnone.
  - destruct (never_revives_handler_of ev s Hs) as [H1 [H2 H3]].
    apply IH.
    + exact H1.
    + unfold step. lia.
    + apply H3; assumption.
Qed.

(** ** A whole countdown *)

Lemma run_app (evs1 evs2 : list Event) (s : Server) :
  run (evs1 ++ evs2) s = run evs2 (run evs1 s).
Proof.
  revert s. induction evs1 as [|ev rest IH]; intros s; cbn;
    [reflexivity | apply IH].
Qed.

Lemma transcript_app (evs1 evs2 : list Event) (s : Server) :
  transcript (evs1 ++ evs2) s
  = transcript evs1 s ++ transcript evs2 (run evs1 s).
Proof.
  revert s. induction evs1 as [|ev rest IH]; intros s; cbn;
    [reflexivity|]. rewrite IH, app_assoc. reflexivity.
Qed.

(** The ticks before the last second. *)
Lemma countdown_runs (h : Handle) (color : Color) (n : nat) (s : Server) :
  invariant s ->
  callback_of h s = Some color ->
  remaining color (timers (game s)) = Z.of_nat (S n) ->
  invariant (run (repeat (Tick h) n) s)
  /\ callback_of h (run (repeat (Tick h) n) s) = Some color
  /\ remaining color (timers (game (run (repeat (Tick h) n) s))) = 1
  /\ filter is_timeUp (transcript (repeat (Tick h) n) s) = [].
Proof.
  revert s. induction n as [|n IH]; intros s Hinv Hcb Hrem.
  - cbn. split; [exact Hinv | split; [exact Hcb | split; [exact Hrem |]]].
    reflexivity.
  - assert (Hlt : 1 < remaining color (timers (game s))) by lia.
    destruct (tick_before_expiry_only_updates h color s Hcb Hlt)
      as [Hout [Htim [_ Hcb']]].
    cbn [repeat run transcript].
    destruct (IH (step (Tick h) s)) as [I1 [I2 [I3 I4]]].
    + apply (keeps_handler_of (Tick h)). exact Hinv.
    + exact Hcb'.
    + rewrite Htim, remaining_decrement. lia.
    + split; [exact I1 | split; [exact I2 | split; [exact I3 |]]].
      cbn [handler_of]. rewrite Hout. cbn. exact I4.
Qed.

(** X17: a countdown that is left alone lasts as many ticks as its side
    has seconds: with n+1 seconds remaining, the first n ticks announce
    no timeUp and leave the countdown running, and tick n+1 leaves 0
    seconds, no countdown running, and the one timeUp of the run. *)
Theorem countdown_lasts_its_seconds
    (h : Handle) (color : Color) (n : nat) (s : Server) :
  reachable s ->
  callback_of h s = Some color ->
  remaining color (timers (game s)) = Z.of_nat (S n) ->
  filter is_timeUp (transcript (repeat (Tick h) n) s) = []
  /\ decrementing (run (repeat (Tick h) n) s) = [color]
  /\ filter is_timeUp (transcript (repeat (Tick h) (S n)) s)
     = [(ToAll, timeUp (initial_letter color))]
  /\ remaining color (timers (game (run (repeat (Tick h) (S n)) s))) = 0
  /\ decrementing (run (repeat (Tick h) (S n)) s) = [].
Proof.
  intros Hreach Hcb Hrem.
  destruct (countdown_runs h color n s (reachable_invariant s Hreach)
              Hcb Hrem) as [Hinv [Hcb' [Hone Hquiet]]].
  pose proof (on_tick_expiry h color (run (repeat (Tick h) n) s)
                (proj1 Hinv) Hcb' ltac:(lia)) as Hlast.
  assert (Hdec : decrementing (run (repeat (Tick h) n) s) = [color]).
  { destruct Hinv as [[_ Hlen] _]. unfold decrementing.
    unfold callback_of in Hcb'.
    destruct (scheduled (run (repeat (Tick h) n) s)) as [|[h1 c1] [|e l]];
      cbn in *; [discriminate | | lia].
    destruct (Nat.eqb h1 h); congruence. }
  replace (repeat (Tick h) (S n)) with (repeat (Tick h) n ++ [Tick h])
    by (symmetry; apply (repeat_cons n (Tick h))).
  rewrite transcript_app, run_app, filter_app, Hquiet.
  cbn [run transcript app]. unfold step, state_after, emitted_by.
  cbn [handler_of]. rewrite Hlast. cbn.
  rewrite remaining_decrement, Hone.
  repeat split; assumption.
Qed.

End MoreServerFacts.

(** * Facts about the client *)

Module ClientFacts.

Import Client.

Lemma below_sixty (P : Z -> Prop) :
  (forall k : nat, (k < 60)%nat -> P (Z.of_nat k)) ->
  forall z, 0 <= z < 60 -> P z.
Proof.
  intros H z Hz. rewrite <- (Z2Nat.id z) by lia. apply H. lia.
Qed.

Lemma seconds_field (s : Z) :
  0 <= s < 60 ->
  String.append (if s <? 10 then "0" else "") (show s) = two_digits s
  /\ String.length (two_digits s) = 2%nat.
Proof.
  revert s. apply below_sixty. intros k Hk.
  do 60 (destruct k as [|k]; [split; reflexivity|]). lia.
Qed.

Lemma show_negative (k : Z) :
  0 < k < 60 -> show (- k) = String.append "-" (show k).
Proof.
  intros Hk. assert (H : 0 <= k < 60) by lia. revert k H Hk.
  apply (below_sixty (fun k => 0 < k < 60 ->
                               show (- k) = String.append "-" (show k))).
  intros k Hk Hpos.
  destruct k as [|k]; [lia|].
  do 59 (destruct k as [|k]; [reflexivity|]). lia.
Qed.

(** X18: for a time that is not negative (and below 2^31 seconds),
    [formatTime] shows the whole minutes, a colon and the seconds of the
    minute on exactly two digits. *)
Theorem formatTime_shows_minutes_and_two_digits (seconds : Z) :
  0 <= seconds < 2 ^ 31 ->
  formatTime seconds
  = String.append (show (seconds / 60))
      (String.append ":" (two_digits (seconds mod 60)))
  /\ String.length (two_digits (seconds mod 60)) = 2%nat
  /\ 0 <= seconds mod 60 < 60
  /\ 60 * (seconds / 60) + seconds mod 60 = seconds.
Proof.
  intros H. unfold formatTime.
  rewrite Z.rem_mod_nonneg by lia.
  assert (Hs : 0 <= seconds mod 60 < 60) by (apply Z.mod_pos_bound; lia).
  destruct (seconds_field (seconds mod 60) Hs) as [Hfield Hlen].
  rewrite Hfield.
  pose proof (Z.div_mod seconds 60 ltac:(lia)) as Hdm.
  split; [reflexivity | split; [exact Hlen | split; [exact Hs | lia]]].
Qed.

(** X19: for a negative time (above -2^31 seconds) that is no whole
    number of minutes, [formatTime] shows the floor of the minutes and then, as seconds, a
    zero followed by a negative number: "-1:0-1" for -1. *)
Theorem formatTime_of_negative_time (seconds : Z) :
  - 2 ^ 31 < seconds < 0 ->
  Z.rem seconds 60 <> 0 ->
  exists k,
    0 < k < 60
    /\ seconds = 60 * (seconds / 60 + 1) - k
    /\ formatTime seconds
       = String.append (show (seconds / 60))
           (String.append ":0-" (show k)).
Proof.
  intros Hneg Hrem.
  assert (Hr : Z.rem seconds 60 = - ((- seconds) mod 60)).
  { rewrite <- (Z.opp_involutive seconds) at 1.
    rewrite Z.rem_opp_l by lia. rewrite Z.rem_mod_nonneg by lia.
    reflexivity. }
  pose proof (Z.mod_pos_bound (- seconds) 60 ltac:(lia)) as Hb.
  exists ((- seconds) mod 60).
  assert (Hk : 0 < (- seconds) mod 60 < 60) by lia.
  split; [exact Hk|]. split.
  - pose proof (Z.div_mod seconds 60 ltac:(lia)).
    pose proof (Z.mod_pos_bound seconds 60 ltac:(lia)).
    pose proof (Z.div_mod (- seconds) 60 ltac:(lia)).
    lia.
  - unfold formatTime. rewrite Hr.
    replace (- ((- seconds) mod 60) <? 10) with true
      by (symmetry; apply Z.ltb_lt; lia).
    rewrite (show_negative _ Hk). reflexivity.
Qed.

Lemma below_eight (P : Z -> Prop) :
  P 0 -> P 1 -> P 2 -> P 3 -> P 4 -> P 5 -> P 6 -> P 7 ->
  forall z, 0 <= z < 8 -> P z.
Proof.
  intros H0 H1 H2 H3 H4 H5 H6 H7 z Hz.
  assert (z = 0 \/ z = 1 \/ z = 2 \/ z = 3 \/ z = 4 \/ z = 5 \/ z = 6
          \/ z = 7) as [->|[->|[->|[->|[->|[->|[->| ->]]]]]]] by lia;
    assumption.
Qed.

(** X20: on the board (rows and columns 0 to 7) the name of a square is
    the letter of its column, from 'a' for column 0, followed by the
    digit of its rank, 8 for row 0 down to 1 for row 7; different
    squares have different names. *)
Theorem algebraicSquare_names_the_square (row col : Z) :
  0 <= row < 8 ->
  0 <= col < 8 ->
  algebraicSquare row col
  = String (ascii_of_nat (97 + Z.to_nat col))
      (String (ascii_of_nat (48 + (8 - Z.to_nat row))) "")
  /\ forall row' col',
       0 <= row' < 8 -> 0 <= col' < 8 ->
       algebraicSquare row col = algebraicSquare row' col' ->
       row = row' /\ col = col'.
Proof.
  intros Hrow Hcol. split.
  - revert col Hcol. revert row Hrow.
    apply (below_eight (fun row => forall col, 0 <= col < 8 -> _));
      apply (below_eight (fun col => _)); reflexivity.
  - intros row' col' Hrow' Hcol' Heq.
    unfold algebraicSquare, fromCharCode in Heq. cbn [String.append] in Heq.
    injection Heq as Hfile Hrank. split.
    + revert row' Hrow' Hrank. revert row Hrow.
      apply (below_eight (fun row => forall row', 0 <= row' < 8 -> _ -> _));
        apply (below_eight (fun row' => _ -> _));
        intros H; first [reflexivity | vm_compute in H; discriminate H].
    + revert col' Hcol' Hfile. revert col Hcol.
      apply (below_eight (fun col => forall col', 0 <= col' < 8 -> _ -> _));
        apply (below_eight (fun col' => _ -> _));
        intros H; first [reflexivity | vm_compute in H; discriminate H].
Qed.

(** X21: the squares are shaded as a chessboard: two squares next to
    each other in a row or in a column have different shades, and the
    corner a1 (row 7, column 0) is dark. *)
Theorem shade_is_a_checkerboard (row col : Z) :
  0 <= row -> 0 <= col ->
  shade row (col + 1) <> shade row col
  /\ shade (row + 1) col <> shade row col
  /\ shade 7 0 = "dark".
Proof.
  intros Hrow Hcol. unfold shade.
  rewrite !Z.rem_mod_nonneg by lia.
  assert (H1 : (row + (col + 1)) mod 2 = 1 - (row + col) mod 2).
  { pose proof (Z.mod_pos_bound (row + col) 2 ltac:(lia)).
    pose proof (Z.mod_pos_bound (row + (col + 1)) 2 ltac:(lia)).
    pose proof (Z.div_mod (row + col) 2 ltac:(lia)).
    pose proof (Z.div_mod (row + (col + 1)) 2 ltac:(lia)). lia. }
  replace (row + 1 + col) with (row + (col + 1)) by lia. rewrite H1.
  pose proof (Z.mod_pos_bound (row + col) 2 ltac:(lia)) as Hb.
  assert ((row + col) mod 2 = 0 \/ (row + col) mod 2 = 1) as [->| ->] by lia;
    cbn; repeat split; discriminate.
Qed.

Lemma length_eight {A} (l : list A) :
  List.length l = 8%nat ->
  exists a b c d e f g h, l = [a; b; c; d; e; f; g; h].
Proof.
  intros H.
  destruct l as [|a [|b [|c [|d [|e [|f [|g [|h [|i l]]]]]]]]];
    try discriminate H.
  exists a, b, c, d, e, f, g, h. reflexivity.
Qed.

(** The piece on the square of row [row] and column [col]. *)
Lemma not_flipped (role : option string) :
  role <> Some "b" ->
  match role with Some r => String.eqb r "b" | None => false end = false.
Proof.
  intros H. destruct role as [r|]; [|reflexivity].
  apply String.eqb_neq. congruence.
Qed.

(** X22: of a position of eight rows of eight, [renderBoard] draws every
    square once, under its own name and with its own piece: seen as
    white or as a spectator, row by row from the eighth rank and from the
    a-file; seen as black, the same squares in the reverse order. *)
Theorem renderBoard_draws_every_square
    (role : option string) (board : list (list (option Piece))) :
  eight_by_eight board ->
  role <> Some "b" ->
  (forall row col,
     0 <= row < 8 -> 0 <= col < 8 ->
     nth_error (renderBoard role board) (Z.to_nat (8 * row + col))
     = Some (createSquareElement row col
               (nth (Z.to_nat col) (nth (Z.to_nat row) board []) None)))
  /\ List.length (renderBoard role board) = 64%nat
  /\ renderBoard (Some "b") board = rev (renderBoard role board).
Proof.
  intros [Hlen Hrows] Hrole.
  destruct (length_eight board Hlen)
    as (r0 & r1 & r2 & r3 & r4 & r5 & r6 & r7 & ->).
  clear Hlen.
  repeat match goal with
         | H : Forall _ (_ :: _) |- _ => inversion H; clear H; subst
         end.
  repeat match goal with
         | H : List.length ?r = 8%nat |- _ =>
             let a := fresh "a" in let b := fresh "b" in
             let c := fresh "c" in let d := fresh "d" in
             let e := fresh "e" in let f := fresh "f" in
             let g := fresh "g" in let h := fresh "h" in
             destruct (length_eight r H)
               as (a & b & c & d & e & f & g & h & ->); clear H
         end.
  unfold renderBoard. rewrite (not_flipped role Hrole).
  split; [|split].
  - intros row col Hrow Hcol. revert col Hcol. revert row Hrow.
    apply (below_eight (fun row => forall col, 0 <= col < 8 -> _));
      apply (below_eight (fun col => _)); reflexivity.
  - reflexivity.
  - reflexivity.
Qed.

(** X23: the glyph of a piece depends on its type only: a white and a
    black piece of the same type (k, q, r, b, n or p) are drawn with the
    same glyph, and differ in their class, "white" or "black". *)
Theorem pieces_differ_in_class_only (t : string) :
  In t ["k"; "q"; "r"; "b"; "n"; "p"] ->
  innerText (createPieceElement (mkPiece t "w"))
  = innerText (createPieceElement (mkPiece t "b"))
  /\ innerText (createPieceElement (mkPiece t "w")) <> None
  /\ piece_class (createPieceElement (mkPiece t "w")) = "white"
  /\ piece_class (createPieceElement (mkPiece t "b")) = "black".
Proof.
  intros H. cbn in H.
  destruct H as [<-|[<-|[<-|[<-|[<-|[<-|[]]]]]]];
    (split; [reflexivity | split; [discriminate | split; reflexivity]]).
Qed.

(** X24: the client names the winner of a timeout itself: on the timeUp
    the server broadcasts for a side (its initial letter), and on the full
    name of the side as well, the status line reads that the other side
    wins on time, both clocks are shown at 0, and the role becomes null,
    except that a spectator stays a spectator. *)
Theorem timeUp_names_the_opponent (color : Color) (c : ClientState) :
  gameStatus (handleTimeUp (initial_letter color) c)
  = String.append "Time's up! "
      (String.append (capitalised (nextColorOf color)) " wins on time")
  /\ handleTimeUp (match color with white => "white" | black => "black" end) c
     = handleTimeUp (initial_letter color) c
  /\ localTimers (handleTimeUp (initial_letter color) c) = mkTimers 0 0
  /\ (playerRole c = Some "spectator" ->
      playerRole (handleTimeUp (initial_letter color) c) = Some "spectator")
  /\ (playerRole c <> Some "spectator" ->
      playerRole (handleTimeUp (initial_letter color) c) = None)
  /\ draggedPiece (handleTimeUp (initial_letter color) c) = draggedPiece c
  /\ playerInfo (handleTimeUp (initial_letter color) c) = playerInfo c.
Proof.
  assert (Hrole : (playerRole c = Some "spectator" ->
                   role_after_end (playerRole c) = Some "spectator")
                  /\ (playerRole c <> Some "spectator" ->
                      role_after_end (playerRole c) = None)).
  { unfold role_after_end. destruct (playerRole c) as [r|].
    - destruct (String.eqb r "spectator") eqn:He.
      + apply String.eqb_eq in He. subst r.
        split; [reflexivity | congruence].
      + apply String.eqb_neq in He.
        split; [congruence | reflexivity].
    - split; [discriminate | reflexivity]. }
  destruct Hrole as [Hspec Hother].
  destruct color; cbn;
    (split; [reflexivity | split; [reflexivity | split; [reflexivity |
      split; [exact Hspec | split; [exact Hother | split; reflexivity]]]]]).
Qed.

Lemma role_after_end_cases (role : option string) :
  role_after_end role = None \/ role_after_end role = Some "spectator".
Proof.
  unfold role_after_end. destruct role as [r|]; [|left; reflexivity].
  destruct (String.eqb r "spectator"); [right | left]; reflexivity.
Qed.

Lemma not_own_without_role (role : option string) (color : string) :
  role = None \/ role = Some "spectator" ->
  (String.eqb color "w" || String.eqb color "b")%bool = true ->
  not_own role color = true.
Proof.
  intros [->| ->] H; [reflexivity|]. cbn.
  apply orb_true_iff in H. destruct H as [H|H];
    apply String.eqb_eq in H; subst color; reflexivity.
Qed.

(** Without a role and without a piece in hand, nothing is sent. *)
Lemma idle_client_sends_no_move (evs : list ClientEvent) (c : ClientState) :
  draggedPiece c = None ->
  playerRole c = None \/ playerRole c = Some "spectator" ->
  forallb piece_events_are_of_pieces evs = true ->
  existsb assigns_role evs = false ->
  existsb is_emit_move (snd (handle_all evs c)) = false.
Proof.
  revert c. induction evs as [|ev rest IH]; intros c Hdrag Hrole Hwf Hnr.
  - reflexivity.
  - cbn in Hwf, Hnr. apply andb_true_iff in Hwf. destruct Hwf as [Hev Hwf].
    apply orb_false_iff in Hnr. destruct Hnr as [Hev' Hnr].
    cbn [handle_all].
    assert (Hstep : draggedPiece (fst (handle ev c)) = None
                    /\ (playerRole (fst (handle ev c)) = None
                        \/ playerRole (fst (handle ev c)) = Some "spectator")
                    /\ existsb is_emit_move (snd (handle ev c)) = false).
    { destruct ev; cbn in Hev, Hev' |- *; try discriminate;
        try (split; [exact Hdrag | split; [exact Hrole | reflexivity]]).
      - split; [exact Hdrag | split; [right; reflexivity | reflexivity]].
      - split; [exact Hdrag | split; [apply role_after_end_cases
                                     | reflexivity]].
      - split; [exact Hdrag | split; [apply role_after_end_cases
                                     | reflexivity]].
      - destruct accept;
          (split; [exact Hdrag | split; [exact Hrole | reflexivity]]).
      - unfold clear_status. destruct (pending_clears c);
          (split; [exact Hdrag | split; [exact Hrole | reflexivity]]).
      - rewrite (not_own_without_role _ _ Hrole Hev).
        split; [exact Hdrag | split; [exact Hrole | reflexivity]].
      - rewrite Hdrag.
        split; [exact Hdrag | split; [exact Hrole | reflexivity]].
      - rewrite (not_own_without_role _ _ Hrole Hev).
        split; [exact Hdrag | split; [exact Hrole | reflexivity]].
      - rewrite Hdrag.
        split; [exact Hdrag | split; [exact Hrole | reflexivity]]. }
    destruct (handle ev c) as [c1 out1]. cbn [fst snd] in Hstep.
    destruct Hstep as [Hd1 [Hr1 Ho1]].
    specialize (IH c1 Hd1 Hr1 Hwf Hnr).
    destruct (handle_all rest c1) as [c2 out2]. cbn [snd] in *.
    rewrite existsb_app, Ho1, IH. reflexivity.
Qed.

(** X25: once the game is over for the client (gameOver or timeUp has
    arrived) and no piece is in its hand, it sends no move any more,
    whatever is dragged, dropped or touched and whatever the server
    sends, until the server assigns it a role again. *)
Theorem client_sends_no_move_after_the_end
    (ending : ClientEvent) (evs : list ClientEvent) (c : ClientState) :
  (exists message, ending = got_gameOver message)
  \/ (exists color, ending = got_timeUp color) ->
  draggedPiece c = None ->
  forallb piece_events_are_of_pieces evs = true ->
  existsb assigns_role evs = false ->
  existsb is_emit_move (snd (handle_all (ending :: evs) c)) = false.
Proof.
  intros Hend Hdrag Hwf Hnr.
  assert (Hgo : forall c1,
            draggedPiece c1 = None ->
            playerRole c1 = None \/ playerRole c1 = Some "spectator" ->
            existsb is_emit_move (snd (handle_all evs c1)) = false).
  { intros c1 Hd Hr. apply idle_client_sends_no_move; assumption. }
  destruct Hend as [[message ->]|[color ->]]; cbn [handle_all handle].
  - specialize (Hgo (handleGameOver message c) Hdrag
                  (role_after_end_cases _)).
    destruct (handle_all evs (handleGameOver message c)) as [c2 out2].
    exact Hgo.
  - specialize (Hgo (handleTimeUp color c) Hdrag (role_after_end_cases _)).
    destruct (handle_all evs (handleTimeUp color c)) as [c2 out2].
    exact Hgo.
Qed.

Lemma handle_all_app (evs1 evs2 : list ClientEvent) (c : ClientState) :
  fst (handle_all (evs1 ++ evs2) c)
  = fst (handle_all evs2 (fst (handle_all evs1 c))).
Proof.
  revert c. induction evs1 as [|ev rest IH]; intros c; cbn [app handle_all].
  - cbn. reflexivity.
  - destruct (handle ev c) as [c1 out1]. specialize (IH c1).
    destruct (handle_all (rest ++ evs2) c1) as [c2 out2].
    destruct (handle_all rest c1) as [c3 out3]. exact IH.
Qed.

Lemma pending_clear_stays (evs : list ClientEvent) (c : ClientState) :
  existsb is_status_timeout evs = false ->
  (0 < pending_clears c)%nat ->
  (0 < pending_clears (fst (handle_all evs c)))%nat.
Proof.
  revert c. induction evs as [|ev rest IH]; intros c Hnt Hpos.
  - exact Hpos.
  - cbn in Hnt. apply orb_false_iff in Hnt. destruct Hnt as [Hev Hnt].
    cbn [handle_all].
    assert (Hstep : (0 < pending_clears (fst (handle ev c)))%nat).
    { destruct ev; cbn in Hev |- *; try discriminate; try exact Hpos;
        try lia;
        repeat match goal with
               | |- context [if ?b then _ else _] => destruct b
               | |- context [match ?x with Some _ => _ | None => _ end] =>
                   destruct x
               end; exact Hpos. }
    destruct (handle ev c) as [c1 out1]. cbn [fst] in Hstep.
    specialize (IH c1 Hnt Hstep).
    destruct (handle_all rest c1) as [c2 out2]. exact IH.
Qed.

(** X26: the timeout set by an invalidMove message empties the status
    line whatever it shows by then: a game-over or time-up text that
    arrived after the invalidMove is erased with it. *)
Theorem invalidMove_timeout_erases_the_status
    (msg : string) (evs : list ClientEvent) (c : ClientState) :
  existsb is_status_timeout evs = false ->
  gameStatus
    (fst (handle_all (got_invalidMove msg :: evs ++ [status_timeout]) c))
  = "".
Proof.
  intros Hnt.
  change (got_invalidMove msg :: evs ++ [status_timeout])
    with ([got_invalidMove msg] ++ (evs ++ [status_timeout])).
  rewrite handle_all_app, handle_all_app.
  cbn [handle_all handle fst].
  pose proof (pending_clear_stays evs (handleInvalidMove msg c) Hnt
                ltac:(cbn; lia)) as Hpos.
  unfold clear_status.
  destruct (pending_clears (fst (handle_all evs (handleInvalidMove msg c))));
    [lia | reflexivity].
Qed.

Lemma formatTime_shows_minutes_and_two_digits_witness :
  formatTime 599 = "9:59".
Proof.
  rewrite (proj1 (formatTime_shows_minutes_and_two_digits 599 ltac:(lia))).
  reflexivity.
Defined.

Lemma formatTime_of_negative_time_witness :
  exists k, 0 < k < 60 /\ -61 = 60 * (-61 / 60 + 1) - k
            /\ formatTime (-61)
               = String.append (show (-61 / 60)) (String.append ":0-" (show k)).
Proof.
  apply (formatTime_of_negative_time (-61)); [lia | discriminate].
Defined.

Lemma algebraicSquare_names_the_square_witness :
  algebraicSquare 6 4 = "e2".
Proof.
  rewrite (proj1 (algebraicSquare_names_the_square 6 4 ltac:(lia) ltac:(lia))).
  reflexivity.
Defined.

Lemma shade_is_a_checkerboard_witness :
  shade 7 (0 + 1) <> shade 7 0.
Proof.
  apply (proj1 (shade_is_a_checkerboard 7 0 ltac:(lia) ltac:(lia))).
Defined.

Lemma initial_board_eight_by_eight : eight_by_eight initial_board.
Proof. split; [reflexivity | repeat constructor]. Qed.

Lemma renderBoard_draws_every_square_witness :
  renderBoard (Some "b") initial_board
  = rev (renderBoard (Some "w") initial_board).
Proof.
  apply (proj2 (proj2 (renderBoard_draws_every_square (Some "w") initial_board
                         initial_board_eight_by_eight
                         ltac:(discriminate)))).
Defined.

Lemma pieces_differ_in_class_only_witness :
  innerText (createPieceElement (mkPiece "q" "w"))
  = innerText (createPieceElement (mkPiece "q" "b")).
Proof.
  apply (proj1 (pieces_differ_in_class_only "q"
                  ltac:(right; left; reflexivity))).
Defined.

Lemma client_sends_no_move_after_the_end_witness :
  existsb is_emit_move
    (snd (handle_all
            [got_gameOver "White resigns. Black wins!";
             dragstart "e7" "b"; drop "e5"; touchstart "e7" "b";
             touchend (Some "e5")]
            (mkClientState (Some "b") None (mkTimers 600 600)
               "You are playing as Black" "" 0)))
  = false.
Proof.
  apply (client_sends_no_move_after_the_end
           (got_gameOver "White resigns. Black wins!")
           [dragstart "e7" "b"; drop "e5"; touchstart "e7" "b";
            touchend (Some "e5")]).
  - left. exists "White resigns. Black wins!". reflexivity.
  - reflexivity.
  - reflexivity.
  - reflexivity.
Defined.

Lemma invalidMove_timeout_erases_the_status_witness :
  gameStatus
    (fst (handle_all
            (got_invalidMove "Invalid move"
             :: [got_gameOver "White resigns. Black wins!"]
                ++ [status_timeout])
            (mkClientState (Some "b") None (mkTimers 600 600)
               "You are playing as Black" "" 0)))
  = "".
Proof.
  apply (invalidMove_timeout_erases_the_status "Invalid move"
           [got_gameOver "White resigns. Black wins!"]).
  reflexivity.
Defined.

End ClientFacts.

(** * More scenarios, on the opening book *)

Lemma only_ticks_and_reset_change_the_clocks_witness :
  timers (game (step (Resign "A") (run white_on_last_second boot)))
  = timers (game (run white_on_last_second boot)).
Proof.
  apply (only_ticks_and_reset_change_the_clocks (Resign "A")
           (run white_on_last_second boot)); reflexivity.
Defined.

Lemma only_seating_events_change_the_seats_witness :
  players (game (step (Resign "A") (run two_players boot)))
  = players (game (run two_players boot)).
Proof.
  apply (only_seating_events_change_the_seats (Resign "A")
           (run two_players boot)); reflexivity.
Defined.

Lemma only_moves_and_reset_change_the_position_witness :
  chess (game (step (Disconnect "B") (run fools_mate_but_one boot)))
  = chess (game (run fools_mate_but_one boot)).
Proof.
  apply (only_moves_and_reset_change_the_position (Disconnect "B")
           (run fools_mate_but_one boot)); reflexivity.
Defined.

Lemma connection_never_evicts_witness :
  seat white (players (game (step (Connection "B") (run [Connection "A"] boot))))
  = seat white (players (game (run [Connection "A"] boot))).
Proof.
  apply (connection_never_evicts "B" white (run [Connection "A"] boot)).
  reflexivity.
Defined.

Lemma connection_to_full_table_is_spectator_witness :
  state_after (on_connection "C") (run two_players boot)
  = run two_players boot
  /\ emitted_by (on_connection "C") (run two_players boot)
     = [(ToSocket "C", spectatorRole);
        (ToSocket "C",
         gameState (fen (chess (game (run two_players boot))))
           (timers (game (run two_players boot))))].
Proof.
  apply (connection_to_full_table_is_spectator "C" (run two_players boot));
    reflexivity.
Defined.

Lemma seats_go_to_the_first_two_connections_witness :
  players (game (run [Connection "A"; Connection "B"] boot))
  = mkPlayers (Some "A") (Some "B").
Proof.
  apply (proj1 (seats_go_to_the_first_two_connections "A" "B" "C" boot
                  reachable_boot eq_refl
                  ltac:(discriminate) ltac:(discriminate))).
Defined.

Lemma only_the_black_seat_starts_the_clock_witness :
  decrementing
    (step (Connection "C")
       (run (fools_mate_but_one ++ [Disconnect "B"]) boot))
  = [white].
Proof.
  apply (proj2 (only_the_black_seat_starts_the_clock "C"
                  (run (fools_mate_but_one ++ [Disconnect "B"]) boot)
                  (reachable_run _ boot reachable_boot)));
    reflexivity.
Defined.

Lemma disconnect_of_seat_holder_witness :
  on_disconnect "A" (run two_players boot)
  = (Normal tt,
     mkServer
       (mkChessGame (chess (game (run two_players boot)))
          (mkPlayers None (p_black (players (game (run two_players boot)))))
          (timers (game (run two_players boot))) [])
       [] (next_handle (run two_players boot)),
     [(ToAll, playerDisconnected "white")]).
Proof.
  apply (proj1 (disconnect_of_seat_holder "A" (run two_players boot)
                  (reachable_run two_players boot reachable_boot))).
  reflexivity.
Defined.

Lemma vacated_seat_goes_to_the_next_connection_witness :
  players (game (run [Disconnect "A"; Connection "C"] (run two_players boot)))
  = mkPlayers (Some "C") (p_black (players (game (run two_players boot))))
  /\ decrementing (run [Disconnect "A"; Connection "C"] (run two_players boot))
     = [].
Proof.
  apply (proj1 (vacated_seat_goes_to_the_next_connection "A" "C"
                  (run two_players boot)
                  (reachable_run two_players boot reachable_boot))).
  reflexivity.
Defined.

Lemma resignation_is_announced_by_seat_witness :
  emitted_by (on_resign "C") (run two_players boot)
  = [(ToAll, gameOver "Player resigns. Opponent wins!")].
Proof.
  apply (proj2 (resignation_is_announced_by_seat "C" (run two_players boot)
                  (reachable_run two_players boot reachable_boot))).
Defined.

Lemma accepted_move_is_broadcast_then_judged_witness :
  emitted_by (on_move "B" (req "d8" "h4")) (run fools_mate_but_one boot)
  = [(ToAll,
      moveMade (mkServerMove "d8" "h4" "q") (fen Mated) (mkTimers 600 600));
     (ToAll, gameOver "Checkmate! Black wins")].
Proof.
  apply (proj1 (@accepted_move_is_broadcast_then_judged book
                  (run fools_mate_but_one boot) "B" (plain "d8" "h4") Mated
                  (reachable_run fools_mate_but_one boot reachable_boot)
                  eq_refl eq_refl)).
Defined.

Lemma reset_request_restarts_the_server_witness :
  state_after on_get_reset (run fools_mate boot)
  = mkServer new_ChessGame [] (next_handle (run fools_mate boot)).
Proof.
  apply (proj1 (reset_request_restarts_the_server (run fools_mate boot)
                  (reachable_run fools_mate boot reachable_boot))).
Defined.

Lemma tick_before_expiry_only_updates_witness :
  emitted_by (on_tick 0%nat) (run two_players boot)
  = [(ToAll, timerUpdate (mkTimers 599 600))].
Proof.
  apply (proj1 (tick_before_expiry_only_updates 0%nat white
                  (run two_players boot) eq_refl ltac:(cbn; lia))).
Defined.

Lemma cleared_interval_never_fires_again_witness :
  on_tick 0%nat
    (run [MoveEvent "B" (req "e7" "e5")]
       (run (two_players ++ [MoveEvent "A" (req "e2" "e4")]) boot))
  = (Normal tt,
     run [MoveEvent "B" (req "e7" "e5")]
       (run (two_players ++ [MoveEvent "A" (req "e2" "e4")]) boot),
     []).
Proof.
  apply (cleared_interval_never_fires_again 0%nat
           (run (two_players ++ [MoveEvent "A" (req "e2" "e4")]) boot)
           [MoveEvent "B" (req "e7" "e5")]).
  - apply reachable_run. apply reachable_boot.
  - cbn. lia.
  - reflexivity.
Defined.

Lemma countdown_lasts_its_seconds_witness :
  filter is_timeUp (transcript (repeat (Tick 0%nat) 600) (run two_players boot))
  = [(ToAll, timeUp "w")].
Proof.
  apply (proj1 (proj2 (proj2 (countdown_lasts_its_seconds 0%nat white 599
                                (run two_players boot)
                                (reachable_run two_players boot reachable_boot)
                                eq_refl eq_refl)))).
Defined.
